(** * sdl_wrapper: ownership and error translation over SDL2, SDL_image, SDL_ttf

    Shallow embedding of [sdl_wrapper.hpp] and of the canonical
    [ttf_wrapper.hpp] (separate [SDLTTF] guard and [TTFFont] classes).

    The native library is external.  It is modelled as a scripted mock: a
    function from the history of native calls and the current call to the
    values that call hands back.  Every native call is recorded, with its
    reply, in a trace; the wrapper code runs in a state-and-exception monad
    over that trace. *)

From Stdlib Require Import ZArith List String Bool Lia.
Import ListNotations.
Local Open Scope Z_scope.

(** ** Native values *)

(** A native pointer ([SDL_Surface*], [TTF_Font*], ...) is its address. *)
Definition Handle := Z.
Definition nullptr : Handle := 0.

Record SDL_Rect := { rect_x : Z; rect_y : Z; rect_w : Z; rect_h : Z }.
Record SDL_Color := { col_r : Z; col_g : Z; col_b : Z; col_a : Z }.

(** [TTFFont::GlyphMetrics] *)
Record GlyphMetrics :=
  { minx : Z; maxx : Z; miny : Z; maxy : Z; advance : Z }.

(** Constants of the native headers. *)
Definition SDL_INIT_VIDEO : Z := 32.
Definition IMG_INIT_PNG : Z := 2.
Definition SDL_WINDOWPOS_UNDEFINED : Z := 536805376.

(** ** Native calls *)

(** One constructor per native function the wrappers call, with the
    arguments passed.  A [const SDL_Rect*] argument is [None] for null. *)
Inductive Call :=
| C_SDL_Init (flags : Z)
| C_SDL_Quit
| C_SDL_SetHint (name value : string)
| C_SDL_GetError
| C_IMG_Init (flags : Z)
| C_IMG_Quit
| C_IMG_GetError
| C_IMG_Load (file : string)
| C_SDL_CreateRGBSurface (flags width height depth rm gm bm am : Z)
| C_SDL_LoadBMP (file : string)
| C_SDL_FreeSurface (s : Handle)
| C_SDL_BlitSurface (src : Handle) (srcrect : option SDL_Rect)
                    (dst : Handle) (dstrect : option SDL_Rect)
| C_SDL_LockSurface (s : Handle)
| C_SDL_UnlockSurface (s : Handle)
| C_SDL_DestroyTexture (t : Handle)
| C_SDL_QueryTexture (t : Handle) (format access w h : Handle)
| C_SDL_DestroyRenderer (r : Handle)
| C_SDL_RenderClear (r : Handle)
| C_SDL_RenderPresent (r : Handle)
| C_SDL_CreateTexture (r : Handle) (format access w h : Z)
| C_SDL_CreateTextureFromSurface (r s : Handle)
| C_SDL_RenderSetLogicalSize (r : Handle) (w h : Z)
| C_SDL_SetRenderDrawColor (rd : Handle) (r g b a : Z)
| C_SDL_RenderDrawLine (r : Handle) (x1 y1 x2 y2 : Z)
| C_SDL_RenderDrawRect (r : Handle) (rect : option SDL_Rect)
| C_SDL_RenderSetViewport (r : Handle) (rect : option SDL_Rect)
| C_SDL_SetRenderTarget (r t : Handle)
| C_SDL_RenderCopy (r t : Handle) (srcrect dstrect : option SDL_Rect)
| C_SDL_DestroyWindow (w : Handle)
| C_SDL_CreateWindow (title : string) (x y w h flags : Z)
| C_SDL_GetWindowSurface (w : Handle)
| C_SDL_UpdateWindowSurface (w : Handle)
| C_SDL_CreateRenderer (w : Handle) (index flags : Z)
| C_TTF_Init
| C_TTF_Quit
| C_TTF_GetError
| C_TTF_OpenFont (file : string) (ptsize : Z)
| C_TTF_CloseFont (f : Handle)
| C_TTF_GlyphMetrics (f : Handle) (ch : Z)
| C_TTF_RenderGlyph_Solid (f : Handle) (ch : Z) (fg : SDL_Color)
| C_TTF_RenderGlyph_Blended (f : Handle) (ch : Z) (fg : SDL_Color)
| C_TTF_FontLineSkip (f : Handle)
| C_TTF_FontAscent (f : Handle)
| C_TTF_FontDescent (f : Handle)
| C_TTF_FontHeight (f : Handle).

(** What a native call hands back.  A call reads the component of its own
    return type: [r_int] for an [int] status, [r_ptr] for a pointer,
    [r_str] for a [const char*] message, [r_bool] for [SDL_bool], and
    [r_metrics] for the five integers [TTF_GlyphMetrics] stores through
    its out-pointers. *)
Record Reply :=
  { r_int : Z; r_ptr : Handle; r_str : string; r_bool : bool;
    r_metrics : GlyphMetrics }.

Definition Event : Type := Call * Reply.
Definition Trace := list Event.

(** The mocked library: its reply to a call, given all earlier calls. *)
Definition Mock := Trace -> Call -> Reply.

(** ** Exceptions, outcomes and the monad of wrapper code *)

(** The only exception type the wrappers throw is [std::runtime_error]. *)
Inductive exception := runtime_error (what : string).

Inductive Outcome (A : Type) :=
| Normal (a : A)
| Thrown (e : exception).
Arguments Normal {A} a.
Arguments Thrown {A} e.

Definition M (A : Type) := Trace -> Outcome A * Trace.

Definition ret {A} (a : A) : M A := fun tr => (Normal a, tr).

Definition bind {A B} (c : M A) (k : A -> M B) : M B :=
  fun tr =>
    match c tr with
    | (Normal a, tr') => k a tr'
    | (Thrown e, tr') => (Thrown e, tr')
    end.

Definition throw {A} (e : exception) : M A := fun tr => (Thrown e, tr).

Declare Scope cpp_scope.
Delimit Scope cpp_scope with cpp.
Notation "x <- c ;; k" := (bind c (fun x => k))
  (at level 61, c at next level, right associativity) : cpp_scope.
Notation "c ;; k" := (bind c (fun _ => k))
  (at level 61, right associativity) : cpp_scope.
Local Open Scope cpp_scope.

(** ** Trace observations *)

Definition calls (tr : Trace) : list Call := map fst tr.

Definition count (p : Call -> bool) (tr : Trace) : nat :=
  List.length (filter p (calls tr)).

Definition is_SDL_Quit (c : Call) : bool :=
  match c with C_SDL_Quit => true | _ => false end.
Definition is_IMG_Quit (c : Call) : bool :=
  match c with C_IMG_Quit => true | _ => false end.
Definition is_TTF_Quit (c : Call) : bool :=
  match c with C_TTF_Quit => true | _ => false end.

(** The native destroy routines, for any handle. *)
Definition is_release (c : Call) : bool :=
  match c with
  | C_SDL_FreeSurface _ | C_SDL_DestroyTexture _ | C_SDL_DestroyRenderer _
  | C_SDL_DestroyWindow _ | C_TTF_CloseFont _ => true
  | _ => false
  end.

(** The handle a destroy routine is applied to. *)
Definition released (c : Call) : option Handle :=
  match c with
  | C_SDL_FreeSurface h | C_SDL_DestroyTexture h | C_SDL_DestroyRenderer h
  | C_SDL_DestroyWindow h | C_TTF_CloseFont h => Some h
  | _ => None
  end.

(** The handles released along a trace, in order. *)
Fixpoint releases (cs : list Call) : list Handle :=
  match cs with
  | [] => []
  | c :: cs' =>
      match released c with
      | Some h => h :: releases cs'
      | None => releases cs'
      end
  end.

(** [needle] occurs in [hay] as a contiguous substring. *)
Fixpoint is_infix (needle hay : string) : bool :=
  if String.prefix needle hay then true
  else match hay with
       | EmptyString => false
       | String _ hay' => is_infix needle hay'
       end.

Section Wrappers.

Variable lib : Mock.

(** Perform a native call: ask the mock, record the event. *)
Definition native (c : Call) : M Reply :=
  fun tr => let r := lib tr c in (Normal r, tr ++ [(c, r)]).

Definition call_int (c : Call) : M Z := r <- native c ;; ret (r_int r).
Definition call_ptr (c : Call) : M Handle := r <- native c ;; ret (r_ptr r).
Definition call_str (c : Call) : M string := r <- native c ;; ret (r_str r).
Definition call_bool (c : Call) : M bool := r <- native c ;; ret (r_bool r).
Definition call_void (c : Call) : M unit := _ <- native c ;; ret tt.

(** ** std::unique_ptr<T, Deleter> *)

Record unique_ptr := { up_ptr : Handle }.

Definition up_null : unique_ptr := {| up_ptr := nullptr |}.

(** [get()]: the stored pointer; the owner is unchanged. *)
Definition up_get (p : unique_ptr) : Handle * unique_ptr := (up_ptr p, p).

(** [~unique_ptr()]: the deleter runs only on a non-null pointer. *)
Definition up_dtor (del : Handle -> M unit) (p : unique_ptr) : M unit :=
  if up_ptr p =? nullptr then ret tt else del (up_ptr p).

(** [reset(q)]: store [q], then delete the old pointer if non-null. *)
Definition up_reset (del : Handle -> M unit) (p : unique_ptr) (q : Handle)
  : M unique_ptr :=
  let old := up_ptr p in
  if old =? nullptr then ret {| up_ptr := q |}
  else (del old ;; ret {| up_ptr := q |}).

(** Move construction: the new owner takes the pointer, the source is
    left null.  Result: (source after the move, destination). *)
Definition up_move (p : unique_ptr) : unique_ptr * unique_ptr :=
  (up_null, {| up_ptr := up_ptr p |}).

(** ** class SDL *)

Record SDL := mk_SDL {}.

Definition SDL_ctor : M SDL :=
  r <- call_int (C_SDL_Init SDL_INIT_VIDEO) ;;
  if r <? 0 then throw (runtime_error "SDL uninitialized")
  else ret mk_SDL.

Definition SDL_dtor (_ : SDL) : M unit := call_void C_SDL_Quit.

Definition SDL_set_hint (_ : SDL) (name value : string) : M bool :=
  call_bool (C_SDL_SetHint name value).

(** ** class SDL_IMG *)

Record SDL_IMG := mk_SDL_IMG {}.

Definition SDL_IMG_ctor : M SDL_IMG :=
  let flags := IMG_INIT_PNG in
  r <- call_int (C_IMG_Init flags) ;;
  if Z.land r flags =? 0 then
    e <- call_str C_IMG_GetError ;;
    throw (runtime_error ("IMG_Init failed! IMG_GetError: " ++ e)%string)
  else ret mk_SDL_IMG.

Definition SDL_IMG_dtor (_ : SDL_IMG) : M unit := call_void C_IMG_Quit.

(** ** class SDLSurface *)

Record SDLSurface := { m_surface : unique_ptr }.

Definition SDLSurface_Deleter (t : Handle) : M unit :=
  if t =? nullptr then ret tt else call_void (C_SDL_FreeSurface t).

(** The constructor from a raw [SDL_Surface] pointer takes it as it is. *)
Definition SDLSurface_ctor (surface : Handle) : SDLSurface :=
  {| m_surface := {| up_ptr := surface |} |}.

(** [SDLSurface(flags, width, height, depth, masks)].  The throw happens
    in the constructor body, so the member [m_surface] is destroyed
    while the exception leaves. *)
Definition SDLSurface_ctor_rgb (flags width height depth rm gm bm am : Z)
  : M SDLSurface :=
  p <- call_ptr (C_SDL_CreateRGBSurface flags width height depth rm gm bm am) ;;
  m <- up_reset SDLSurface_Deleter up_null p ;;
  if up_ptr m =? nullptr then
    e <- call_str C_SDL_GetError ;;
    up_dtor SDLSurface_Deleter m ;;
    throw (runtime_error ("SDL_CreateRGBSurface failed! SDL_Error: " ++ e)%string)
  else ret {| m_surface := m |}.

Definition SDLSurface_dtor (s : SDLSurface) : M unit :=
  up_dtor SDLSurface_Deleter (m_surface s).

Definition SDLSurface_from_bmp (file : string) : M SDLSurface :=
  bmp <- call_ptr (C_SDL_LoadBMP file) ;;
  if bmp =? nullptr then
    e <- call_str C_SDL_GetError ;;
    throw (runtime_error ("SDL_LoadBMP failed! SDL_Error: " ++ e)%string)
  else ret (SDLSurface_ctor bmp).

Definition SDLSurface_from_image (file : string) : M SDLSurface :=
  img <- call_ptr (C_IMG_Load file) ;;
  if img =? nullptr then
    e <- call_str C_IMG_GetError ;;
    throw (runtime_error ("IMG_Load failed! IMG_Error: " ++ e)%string)
  else ret (SDLSurface_ctor img).

Definition SDLSurface_blit_to (this destination : SDLSurface) : M unit :=
  _ <- call_int (C_SDL_BlitSurface (up_ptr (m_surface this)) None
                                   (up_ptr (m_surface destination)) None) ;;
  ret tt.

Definition SDLSurface_lock (this : SDLSurface) : M unit :=
  r <- call_int (C_SDL_LockSurface (up_ptr (m_surface this))) ;;
  if negb (r =? 0) then
    e <- call_str C_SDL_GetError ;;
    throw (runtime_error ("SDL_LockSurface failed! SDL_Error: " ++ e)%string)
  else ret tt.

Definition SDLSurface_unlock (this : SDLSurface) : M unit :=
  call_void (C_SDL_UnlockSurface (up_ptr (m_surface this))).

Definition SDLSurface_try_lock (this : SDLSurface) : M bool :=
  r <- call_int (C_SDL_LockSurface (up_ptr (m_surface this))) ;;
  ret (r =? 0).

(** [get()]: result and the object after the call. *)
Definition SDLSurface_get (this : SDLSurface) : Handle * SDLSurface :=
  let (h, m) := up_get (m_surface this) in (h, {| m_surface := m |}).

(** ** class SDLTexture *)

Record SDLTexture := { m_texture : unique_ptr }.

Definition SDLTexture_Deleter (t : Handle) : M unit :=
  if t =? nullptr then ret tt else call_void (C_SDL_DestroyTexture t).

Definition SDLTexture_ctor (texture : Handle) : SDLTexture :=
  {| m_texture := {| up_ptr := texture |} |}.

(** [SDLTexture(SDLTexture&&) = default]: (source afterwards, new object). *)
Definition SDLTexture_move (other : SDLTexture) : SDLTexture * SDLTexture :=
  let (src, dst) := up_move (m_texture other) in
  ({| m_texture := src |}, {| m_texture := dst |}).

Definition SDLTexture_dtor (t : SDLTexture) : M unit :=
  up_dtor SDLTexture_Deleter (m_texture t).

(** The four arguments are the caller's out-pointers, passed through. *)
Definition SDLTexture_query (this : SDLTexture) (format access w h : Handle)
  : M unit :=
  _ <- call_int (C_SDL_QueryTexture (up_ptr (m_texture this)) format access w h) ;;
  ret tt.

(** ** class SDLRenderer *)

Record SDLRenderer := { m_renderer : unique_ptr }.

Definition SDLRenderer_Deleter (r : Handle) : M unit :=
  if r =? nullptr then ret tt else call_void (C_SDL_DestroyRenderer r).

Definition SDLRenderer_ctor (renderer : Handle) : SDLRenderer :=
  {| m_renderer := {| up_ptr := renderer |} |}.

Definition SDLRenderer_move (other : SDLRenderer) : SDLRenderer * SDLRenderer :=
  let (src, dst) := up_move (m_renderer other) in
  ({| m_renderer := src |}, {| m_renderer := dst |}).

Definition SDLRenderer_dtor (r : SDLRenderer) : M unit :=
  up_dtor SDLRenderer_Deleter (m_renderer r).

Definition SDLRenderer_clear (this : SDLRenderer) : M unit :=
  _ <- call_int (C_SDL_RenderClear (up_ptr (m_renderer this))) ;; ret tt.

Definition SDLRenderer_present (this : SDLRenderer) : M unit :=
  call_void (C_SDL_RenderPresent (up_ptr (m_renderer this))).

Definition SDLRenderer_create_texture (this : SDLRenderer)
    (format access w h : Z) : M SDLTexture :=
  t <- call_ptr (C_SDL_CreateTexture (up_ptr (m_renderer this)) format access w h) ;;
  ret (SDLTexture_ctor t).

Definition SDLRenderer_create_texture_from_surface (this : SDLRenderer)
    (surface : SDLSurface) : M SDLTexture :=
  t <- call_ptr (C_SDL_CreateTextureFromSurface (up_ptr (m_renderer this))
                                                (up_ptr (m_surface surface))) ;;
  ret (SDLTexture_ctor t).

Definition SDLRenderer_set_logical_size (this : SDLRenderer) (w h : Z) : M unit :=
  _ <- call_int (C_SDL_RenderSetLogicalSize (up_ptr (m_renderer this)) w h) ;;
  ret tt.

Definition SDLRenderer_set_draw_color (this : SDLRenderer) (r g b a : Z) : M unit :=
  _ <- call_int (C_SDL_SetRenderDrawColor (up_ptr (m_renderer this)) r g b a) ;;
  ret tt.

Definition SDLRenderer_draw_line (this : SDLRenderer) (x1 y1 x2 y2 : Z) : M unit :=
  _ <- call_int (C_SDL_RenderDrawLine (up_ptr (m_renderer this)) x1 y1 x2 y2) ;;
  ret tt.

Definition SDLRenderer_draw_rect (this : SDLRenderer) (rect : option SDL_Rect)
  : M unit :=
  _ <- call_int (C_SDL_RenderDrawRect (up_ptr (m_renderer this)) rect) ;; ret tt.

Definition SDLRenderer_set_viewport (this : SDLRenderer) (rect : option SDL_Rect)
  : M unit :=
  r <- call_int (C_SDL_RenderSetViewport (up_ptr (m_renderer this)) rect) ;;
  if r <? 0 then
    e <- call_str C_SDL_GetError ;;
    throw (runtime_error ("Could'nt set viewport! SDL_Error: " ++ e)%string)
  else ret tt.

Definition SDLRenderer_set_render_target (this : SDLRenderer)
    (texture : SDLTexture) : M unit :=
  _ <- call_int (C_SDL_SetRenderTarget (up_ptr (m_renderer this))
                                       (up_ptr (m_texture texture))) ;;
  ret tt.

Definition SDLRenderer_reset_render_target (this : SDLRenderer) : M unit :=
  _ <- call_int (C_SDL_SetRenderTarget (up_ptr (m_renderer this)) nullptr) ;;
  ret tt.

Definition SDLRenderer_draw_texture (this : SDLRenderer) (texture : SDLTexture)
    (srcrect dstrect : option SDL_Rect) : M unit :=
  _ <- call_int (C_SDL_RenderCopy (up_ptr (m_renderer this))
                                  (up_ptr (m_texture texture)) srcrect dstrect) ;;
  ret tt.

(** ** class SDLWindow *)

Record SDLWindow := { m_window : unique_ptr }.

Definition SDLWindow_Deleter (w : Handle) : M unit :=
  if w =? nullptr then ret tt else call_void (C_SDL_DestroyWindow w).

Definition SDLWindow_ctor (title : string) (width height flags : Z)
  : M SDLWindow :=
  p <- call_ptr (C_SDL_CreateWindow title SDL_WINDOWPOS_UNDEFINED
                   SDL_WINDOWPOS_UNDEFINED width height flags) ;;
  m <- up_reset SDLWindow_Deleter up_null p ;;
  if up_ptr m =? nullptr then
    e <- call_str C_SDL_GetError ;;
    up_dtor SDLWindow_Deleter m ;;
    throw (runtime_error ("Window could not be created! SDL_Error: " ++ e)%string)
  else ret {| m_window := m |}.

Definition SDLWindow_move (other : SDLWindow) : SDLWindow * SDLWindow :=
  let (src, dst) := up_move (m_window other) in
  ({| m_window := src |}, {| m_window := dst |}).

Definition SDLWindow_dtor (w : SDLWindow) : M unit :=
  up_dtor SDLWindow_Deleter (m_window w).

Definition SDLWindow_get_surface (this : SDLWindow) : M SDLSurface :=
  s <- call_ptr (C_SDL_GetWindowSurface (up_ptr (m_window this))) ;;
  ret (SDLSurface_ctor s).

Definition SDLWindow_update_surface (this : SDLWindow) : M unit :=
  _ <- call_int (C_SDL_UpdateWindowSurface (up_ptr (m_window this))) ;; ret tt.

Definition SDLWindow_create_renderer (this : SDLWindow) (index flags : Z)
  : M SDLRenderer :=
  r <- call_ptr (C_SDL_CreateRenderer (up_ptr (m_window this)) index flags) ;;
  ret (SDLRenderer_ctor r).

(** ** class TTFFont (canonical variant) *)

Record TTFFont := { m_font : unique_ptr }.

Definition TTFFont_Deleter (t : Handle) : M unit :=
  if t =? nullptr then ret tt else call_void (C_TTF_CloseFont t).

Definition TTFFont_ctor (font : Handle) : TTFFont :=
  {| m_font := {| up_ptr := font |} |}.

Definition TTFFont_dtor (f : TTFFont) : M unit :=
  up_dtor TTFFont_Deleter (m_font f).

(** The local [metrics] is filled through five out-pointers; [r_metrics]
    is what the library stored there. *)
Definition TTFFont_glyph_metrics (this : TTFFont) (ch : Z) : M GlyphMetrics :=
  r <- native (C_TTF_GlyphMetrics (up_ptr (m_font this)) ch) ;;
  if r_int r <? 0 then
    e <- call_str C_TTF_GetError ;;
    throw (runtime_error ("Could not get metrics! TTF_Error: " ++ e)%string)
  else ret (r_metrics r).

Definition TTFFont_render_glyph_solid (this : TTFFont) (ch : Z) (fg : SDL_Color)
  : M SDLSurface :=
  surface <- call_ptr (C_TTF_RenderGlyph_Solid (up_ptr (m_font this)) ch fg) ;;
  if surface =? nullptr then
    e <- call_str C_TTF_GetError ;;
    throw (runtime_error ("Failure in glyph render! TTF_Error: " ++ e)%string)
  else ret (SDLSurface_ctor surface).

Definition TTFFont_render_glyph_blended (this : TTFFont) (ch : Z) (fg : SDL_Color)
  : M SDLSurface :=
  surface <- call_ptr (C_TTF_RenderGlyph_Blended (up_ptr (m_font this)) ch fg) ;;
  if surface =? nullptr then
    e <- call_str C_TTF_GetError ;;
    throw (runtime_error ("Failure in glyph render! TTF_Error: " ++ e)%string)
  else ret (SDLSurface_ctor surface).

Definition TTFFont_line_skip (this : TTFFont) : M Z :=
  call_int (C_TTF_FontLineSkip (up_ptr (m_font this))).
Definition TTFFont_ascent (this : TTFFont) : M Z :=
  call_int (C_TTF_FontAscent (up_ptr (m_font this))).
Definition TTFFont_descent (this : TTFFont) : M Z :=
  call_int (C_TTF_FontDescent (up_ptr (m_font this))).
Definition TTFFont_height (this : TTFFont) : M Z :=
  call_int (C_TTF_FontHeight (up_ptr (m_font this))).

(** ** class SDLTTF (canonical variant) *)

Record SDLTTF := mk_SDLTTF {}.

Definition SDLTTF_ctor : M SDLTTF :=
  r <- call_int C_TTF_Init ;;
  if r <? 0 then
    e <- call_str C_TTF_GetError ;;
    throw (runtime_error ("Can't init TTF! TTF_Error: " ++ e)%string)
  else ret mk_SDLTTF.

Definition SDLTTF_dtor (_ : SDLTTF) : M unit := call_void C_TTF_Quit.

(** [open] is a non-static member: it is called on a guard object. *)
Definition SDLTTF_open (this : SDLTTF) (file : string) (ptsize : Z) : M TTFFont :=
  font <- call_ptr (C_TTF_OpenFont file ptsize) ;;
  if font =? nullptr then
    e <- call_str C_TTF_GetError ;;
    throw (runtime_error ("Could not load font! TTF_Error: " ++ e)%string)
  else ret (TTFFont_ctor font).

(** ** The three guard classes, uniformly *)

Inductive GuardKind := G_SDL | G_IMG | G_TTF.

Inductive Guard :=
| Guard_SDL (g : SDL)
| Guard_IMG (g : SDL_IMG)
| Guard_TTF (g : SDLTTF).

Definition guard_ctor (k : GuardKind) : M Guard :=
  match k with
  | G_SDL => g <- SDL_ctor ;; ret (Guard_SDL g)
  | G_IMG => g <- SDL_IMG_ctor ;; ret (Guard_IMG g)
  | G_TTF => g <- SDLTTF_ctor ;; ret (Guard_TTF g)
  end.

Definition guard_dtor (g : Guard) : M unit :=
  match g with
  | Guard_SDL g => SDL_dtor g
  | Guard_IMG g => SDL_IMG_dtor g
  | Guard_TTF g => SDLTTF_dtor g
  end.

(** [{ Guard g; }]: a guard declared in a block that does nothing else.
    The destructor runs at the end of the block, and only for an object
    whose constructor completed. *)
Definition guard_scope (k : GuardKind) : M unit :=
  g <- guard_ctor k ;; guard_dtor g.

(** ** The five owning wrapper classes, uniformly *)

Inductive Wrapper :=
| W_Surface (s : SDLSurface)
| W_Texture (t : SDLTexture)
| W_Renderer (r : SDLRenderer)
| W_Window (w : SDLWindow)
| W_Font (f : TTFFont).

(** The wrapper's owning member. *)
Definition owner (w : Wrapper) : unique_ptr :=
  match w with
  | W_Surface s => m_surface s
  | W_Texture t => m_texture t
  | W_Renderer r => m_renderer r
  | W_Window w => m_window w
  | W_Font f => m_font f
  end.

Definition held (w : Wrapper) : Handle := up_ptr (owner w).

Definition destroy (w : Wrapper) : M unit :=
  match w with
  | W_Surface s => SDLSurface_dtor s
  | W_Texture t => SDLTexture_dtor t
  | W_Renderer r => SDLRenderer_dtor r
  | W_Window w => SDLWindow_dtor w
  | W_Font f => TTFFont_dtor f
  end.

End Wrappers.

(** Move construction [T b(std::move(a))], where the class has a move
    constructor: (a afterwards, b).  [SDLTexture], [SDLRenderer] and
    [SDLWindow] declare theirs as defaulted.  [SDLSurface] and [TTFFont]
    declare a private copy constructor that is never defined and a
    destructor, and no move constructor, so none is generated for them
    and the expression does not build. *)
Definition move_construct (w : Wrapper) : option (Wrapper * Wrapper) :=
  match w with
  | W_Surface _ => None
  | W_Texture t => let (a, b) := SDLTexture_move t in Some (W_Texture a, W_Texture b)
  | W_Renderer r => let (a, b) := SDLRenderer_move r in Some (W_Renderer a, W_Renderer b)
  | W_Window w => let (a, b) := SDLWindow_move w in Some (W_Window a, W_Window b)
  | W_Font _ => None
  end.

(** ** Native sentinels per guard *)

Definition init_call (k : GuardKind) : Call :=
  match k with
  | G_SDL => C_SDL_Init SDL_INIT_VIDEO
  | G_IMG => C_IMG_Init IMG_INIT_PNG
  | G_TTF => C_TTF_Init
  end.

Definition quit_call (k : GuardKind) : Call :=
  match k with
  | G_SDL => C_SDL_Quit
  | G_IMG => C_IMG_Quit
  | G_TTF => C_TTF_Quit
  end.

Definition is_quit (k : GuardKind) : Call -> bool :=
  match k with
  | G_SDL => is_SDL_Quit
  | G_IMG => is_IMG_Quit
  | G_TTF => is_TTF_Quit
  end.

(** The test each guard constructor applies to what its init routine
    returned. *)
Definition init_failed (k : GuardKind) (r : Z) : bool :=
  match k with
  | G_SDL => r <? 0
  | G_IMG => Z.land r IMG_INIT_PNG =? 0
  | G_TTF => r <? 0
  end.

(** ** Clients of the font API *)

(** A client is a sequence of declarations and member calls on named
    automatic objects.  A name denotes an object from the end of its
    constructor to the end of its scope; a statement that uses a name
    with no object of the right class behind it does not build. *)

Definition Var := nat.

Inductive Obj :=
| O_guard (g : SDLTTF)
| O_font (f : TTFFont)
| O_surface (s : SDLSurface).

(** Live objects, the most recently constructed first. *)
Definition Env := list (Var * Obj).

Fixpoint lookup (x : Var) (env : Env) : option Obj :=
  match env with
  | [] => None
  | (y, o) :: env' => if Nat.eqb x y then Some o else lookup x env'
  end.

Fixpoint remove (x : Var) (env : Env) : Env :=
  match env with
  | [] => []
  | (y, o) :: env' => if Nat.eqb x y then env' else (y, o) :: remove x env'
  end.

Inductive Stmt :=
| S_SDLTTF (g : Var)
    (* SDLTTF g; *)
| S_open (f g : Var) (file : string) (ptsize : Z)
    (* TTFFont f = g.open(file, ptsize); *)
| S_TTFFont (f : Var) (font : Handle)
    (* TTFFont f(font); *)
| S_glyph_metrics (f : Var) (ch : Z)
    (* f.glyph_metrics(ch); *)
| S_render_glyph_solid (s f : Var) (ch : Z) (fg : SDL_Color)
    (* SDLSurface s = f.render_glyph_solid(ch, fg); *)
| S_render_glyph_blended (s f : Var) (ch : Z) (fg : SDL_Color)
    (* SDLSurface s = f.render_glyph_blended(ch, fg); *)
| S_line_skip (f : Var)
| S_ascent (f : Var)
| S_descent (f : Var)
| S_height (f : Var)
| S_end (x : Var).
    (* the scope of x ends *)

Section Clients.

Variable lib : Mock.

Definition destroy_obj (o : Obj) : M unit :=
  match o with
  | O_guard g => SDLTTF_dtor lib g
  | O_font f => TTFFont_dtor lib f
  | O_surface s => SDLSurface_dtor lib s
  end.

(** Stack unwinding: every live object is destroyed, last built first. *)
Fixpoint unwind (env : Env) : M unit :=
  match env with
  | [] => ret tt
  | (_, o) :: env' => destroy_obj o ;; unwind env'
  end.

Definition on_font (f : Var) (env : Env) {A} (k : TTFFont -> M A)
  : option (M A) :=
  match lookup f env with
  | Some (O_font font) => Some (k font)
  | _ => None
  end.

(** One statement; [None] when it does not build. *)
Definition exec (s : Stmt) (env : Env) : option (M Env) :=
  match s with
  | S_SDLTTF g =>
      Some (o <- SDLTTF_ctor lib ;; ret ((g, O_guard o) :: env))
  | S_open f g file ptsize =>
      match lookup g env with
      | Some (O_guard guard) =>
          Some (o <- SDLTTF_open lib guard file ptsize ;;
                ret ((f, O_font o) :: env))
      | _ => None
      end
  | S_TTFFont f font => Some (ret ((f, O_font (TTFFont_ctor font)) :: env))
  | S_glyph_metrics f ch =>
      on_font f env (fun font => _ <- TTFFont_glyph_metrics lib font ch ;; ret env)
  | S_render_glyph_solid s f ch fg =>
      on_font f env (fun font =>
        o <- TTFFont_render_glyph_solid lib font ch fg ;;
        ret ((s, O_surface o) :: env))
  | S_render_glyph_blended s f ch fg =>
      on_font f env (fun font =>
        o <- TTFFont_render_glyph_blended lib font ch fg ;;
        ret ((s, O_surface o) :: env))
  | S_line_skip f =>
      on_font f env (fun font => _ <- TTFFont_line_skip lib font ;; ret env)
  | S_ascent f =>
      on_font f env (fun font => _ <- TTFFont_ascent lib font ;; ret env)
  | S_descent f =>
      on_font f env (fun font => _ <- TTFFont_descent lib font ;; ret env)
  | S_height f =>
      on_font f env (fun font => _ <- TTFFont_height lib font ;; ret env)
  | S_end x =>
      match lookup x env with
      | Some o => Some (destroy_obj o ;; ret (remove x env))
      | None => None
      end
  end.

(** A whole client.  An exception nobody catches unwinds the stack and
    ends the run. *)
Fixpoint run (p : list Stmt) (env : Env) (tr : Trace)
  : option (Outcome Env * Trace) :=
  match p with
  | [] => Some (Normal env, tr)
  | s :: p' =>
      match exec s env with
      | None => None
      | Some c =>
          match c tr with
          | (Normal env', tr') => run p' env' tr'
          | (Thrown e, tr') => Some (Thrown e, snd (unwind env tr'))
          end
      end
  end.

End Clients.

(** The result of [TTF_Init] in an event, when the event is that call and
    it reported success. *)
Definition ttf_init_ok (ev : Event) : bool :=
  match fst ev with
  | C_TTF_Init => 0 <=? r_int (snd ev)
  | _ => false
  end.

Definition is_open_font (c : Call) : bool :=
  match c with C_TTF_OpenFont _ _ => true | _ => false end.

(** Every [TTF_OpenFont] in the trace comes after a [TTF_Init] that
    reported success. *)
Definition opens_guarded (tr : Trace) : Prop :=
  forall pre ev post,
    tr = pre ++ ev :: post ->
    is_open_font (fst ev) = true ->
    existsb ttf_init_ok pre = true.

(** A client: guard, font, one glyph measured, scopes closed in reverse. *)
Definition demo_client : list Stmt :=
  [ S_SDLTTF 0%nat;
    S_open 1%nat 0%nat "DejaVuSans.ttf" 16;
    S_glyph_metrics 1%nat 65;
    S_end 1%nat;
    S_end 0%nat ].

(** ** Invariant of a client run *)

(** A successful [TTF_Init] has been recorded. *)
Definition seen (tr : Trace) : bool := existsb ttf_init_ok tr.

(** [tr'] extends [tr] by events none of which is a [TTF_OpenFont]. *)
Definition safe_ext (tr tr' : Trace) : Prop :=
  exists new,
    tr' = tr ++ new /\
    forallb (fun ev => negb (is_open_font (fst ev))) new = true.

(** Objects of the environment that are guards. *)
Definition has_guard (env : Env) : Prop :=
  exists x g, In (x, O_guard g) env.

(** The state the run maintains: the trace is guarded, and a live guard
    object means a successful init has been recorded. *)
Definition run_inv (env : Env) (tr : Trace) : Prop :=
  opens_guarded tr /\ (has_guard env -> seen tr = true).

(** ** Destroy routines and forwarding operations, uniformly *)

(** The destroy routine of the wrapper's subsystem, on the held handle. *)
Definition release_call (w : Wrapper) : Call :=
  match w with
  | W_Surface _ => C_SDL_FreeSurface (held w)
  | W_Texture _ => C_SDL_DestroyTexture (held w)
  | W_Renderer _ => C_SDL_DestroyRenderer (held w)
  | W_Window _ => C_SDL_DestroyWindow (held w)
  | W_Font _ => C_TTF_CloseFont (held w)
  end.

(** The classes that declare a move constructor. *)
Definition movable (w : Wrapper) : bool :=
  match w with
  | W_Texture _ | W_Renderer _ | W_Window _ => true
  | W_Surface _ | W_Font _ => false
  end.

(** A call of one of the member functions that forward to the library
    and return [void] without looking at the status. *)
Inductive ForwardOp :=
| Op_clear (this : SDLRenderer)
| Op_present (this : SDLRenderer)
| Op_set_draw_color (this : SDLRenderer) (r g b a : Z)
| Op_draw_line (this : SDLRenderer) (x1 y1 x2 y2 : Z)
| Op_draw_rect (this : SDLRenderer) (rect : option SDL_Rect)
| Op_draw_texture (this : SDLRenderer) (texture : SDLTexture)
                  (srcrect dstrect : option SDL_Rect)
| Op_set_render_target (this : SDLRenderer) (texture : SDLTexture)
| Op_reset_render_target (this : SDLRenderer)
| Op_set_logical_size (this : SDLRenderer) (w h : Z)
| Op_blit_to (this destination : SDLSurface)
| Op_query (this : SDLTexture) (format access w h : Handle).

Definition forward (lib : Mock) (op : ForwardOp) : M unit :=
  match op with
  | Op_clear this => SDLRenderer_clear lib this
  | Op_present this => SDLRenderer_present lib this
  | Op_set_draw_color this r g b a => SDLRenderer_set_draw_color lib this r g b a
  | Op_draw_line this x1 y1 x2 y2 => SDLRenderer_draw_line lib this x1 y1 x2 y2
  | Op_draw_rect this rect => SDLRenderer_draw_rect lib this rect
  | Op_draw_texture this texture srcrect dstrect =>
      SDLRenderer_draw_texture lib this texture srcrect dstrect
  | Op_set_render_target this texture =>
      SDLRenderer_set_render_target lib this texture
  | Op_reset_render_target this => SDLRenderer_reset_render_target lib this
  | Op_set_logical_size this w h => SDLRenderer_set_logical_size lib this w h
  | Op_blit_to this destination => SDLSurface_blit_to lib this destination
  | Op_query this format access w h => SDLTexture_query lib this format access w h
  end.

(** The native function behind each of them, with the arguments it gets. *)
Definition forwarded_call (op : ForwardOp) : Call :=
  match op with
  | Op_clear this => C_SDL_RenderClear (up_ptr (m_renderer this))
  | Op_present this => C_SDL_RenderPresent (up_ptr (m_renderer this))
  | Op_set_draw_color this r g b a =>
      C_SDL_SetRenderDrawColor (up_ptr (m_renderer this)) r g b a
  | Op_draw_line this x1 y1 x2 y2 =>
      C_SDL_RenderDrawLine (up_ptr (m_renderer this)) x1 y1 x2 y2
  | Op_draw_rect this rect => C_SDL_RenderDrawRect (up_ptr (m_renderer this)) rect
  | Op_draw_texture this texture srcrect dstrect =>
      C_SDL_RenderCopy (up_ptr (m_renderer this)) (up_ptr (m_texture texture))
                       srcrect dstrect
  | Op_set_render_target this texture =>
      C_SDL_SetRenderTarget (up_ptr (m_renderer this)) (up_ptr (m_texture texture))
  | Op_reset_render_target this =>
      C_SDL_SetRenderTarget (up_ptr (m_renderer this)) nullptr
  | Op_set_logical_size this w h =>
      C_SDL_RenderSetLogicalSize (up_ptr (m_renderer this)) w h
  | Op_blit_to this destination =>
      C_SDL_BlitSurface (up_ptr (m_surface this)) None
                        (up_ptr (m_surface destination)) None
  | Op_query this format access w h =>
      C_SDL_QueryTexture (up_ptr (m_texture this)) format access w h
  end.

(** The statement of the ownership-transfer property at one wrapper [w]
    holding a resource: [w] can be move-constructed from; destroying the
    moved-from object then makes no native call, and destroying the new
    object releases the handle [w] held, once. *)
Definition move_transfers_ownership (lib : Mock) (w : Wrapper) : Prop :=
  exists a b,
    move_construct w = Some (a, b) /\
    forall tr,
      destroy lib a tr = (Normal tt, tr) /\
      fst (destroy lib b tr) = Normal tt /\
      releases (calls (snd (destroy lib b tr)))
        = (releases (calls tr) ++ [held w])%list.

(** ** Scripted libraries used in the examples *)

Definition no_metrics : GlyphMetrics :=
  {| minx := 0; maxx := 0; miny := 0; maxy := 0; advance := 0 |}.

Definition reply0 : Reply :=
  {| r_int := 0; r_ptr := nullptr; r_str := ""; r_bool := false;
     r_metrics := no_metrics |}.

Definition reply_int (z : Z) : Reply :=
  {| r_int := z; r_ptr := nullptr; r_str := ""; r_bool := false;
     r_metrics := no_metrics |}.

Definition reply_ptr (h : Handle) : Reply :=
  {| r_int := 0; r_ptr := h; r_str := ""; r_bool := false;
     r_metrics := no_metrics |}.

Definition reply_str (s : string) : Reply :=
  {| r_int := 0; r_ptr := nullptr; r_str := s; r_bool := false;
     r_metrics := no_metrics |}.

(** Every init, create and lock call fails; the last error of each
    subsystem is a fixed text. *)
Definition failing_lib : Mock :=
  fun _ c =>
    match c with
    | C_SDL_Init _ | C_TTF_Init => reply_int (-1)
    | C_SDL_LockSurface _ | C_SDL_RenderSetViewport _ _ => reply_int (-1)
    | C_TTF_GlyphMetrics _ _ => reply_int (-1)
    | C_SDL_GetError => reply_str "No available video device"
    | C_IMG_GetError => reply_str "Unsupported image format"
    | C_TTF_GetError => reply_str "file not found"
    | _ => reply0
    end.

(** Every call succeeds: pointers are 4096, statuses are 0 (and
    [IMG_Init] grants PNG), glyph metrics are the ones of the scenario. *)
Definition scenario_metrics : GlyphMetrics :=
  {| minx := 1; maxx := 9; miny := 0; maxy := 12; advance := 10 |}.

Definition working_lib : Mock :=
  fun _ c =>
    match c with
    | C_IMG_Init _ => reply_int IMG_INIT_PNG
    | C_TTF_GlyphMetrics _ _ =>
        {| r_int := 0; r_ptr := nullptr; r_str := ""; r_bool := false;
           r_metrics := scenario_metrics |}
    | C_SDL_GetError | C_IMG_GetError | C_TTF_GetError => reply_str ""
    | _ => {| r_int := 0; r_ptr := 4096; r_str := ""; r_bool := true;
              r_metrics := no_metrics |}
    end.

(** Windows can be created, renderers and textures cannot. *)
Definition no_renderer_lib : Mock :=
  fun _ c =>
    match c with
    | C_SDL_CreateWindow _ _ _ _ _ _ => reply_ptr 4096
    | C_SDL_CreateRenderer _ _ _ => reply_ptr nullptr
    | C_SDL_CreateTexture _ _ _ _ _ => reply_ptr nullptr
    | C_SDL_GetError => reply_str "Couldn't find matching render driver"
    | _ => reply0
    end.

(** Fonts open, glyph metrics cannot be read. *)
Definition metrics_fail_lib : Mock :=
  fun _ c =>
    match c with
    | C_TTF_OpenFont _ _ => reply_ptr 4096
    | C_TTF_GlyphMetrics _ _ => reply_int (-1)
    | C_TTF_GetError => reply_str "Couldn't find glyph"
    | _ => reply0
    end.

(** ** Factories, uniformly *)

(** A call of one of the functions that obtain a pointer from the
    library and return an owning wrapper around it. *)
Inductive Factory :=
| F_from_bmp (file : string)
| F_from_image (file : string)
| F_surface_rgb (flags width height depth rm gm bm am : Z)
| F_window (title : string) (width height flags : Z)
| F_get_surface (this : SDLWindow)
| F_create_renderer (this : SDLWindow) (index flags : Z)
| F_create_texture (this : SDLRenderer) (format access w h : Z)
| F_create_texture_from_surface (this : SDLRenderer) (surface : SDLSurface)
| F_open (this : SDLTTF) (file : string) (ptsize : Z)
| F_render_glyph_solid (this : TTFFont) (ch : Z) (fg : SDL_Color)
| F_render_glyph_blended (this : TTFFont) (ch : Z) (fg : SDL_Color).

Definition produce (lib : Mock) (f : Factory) : M Wrapper :=
  match f with
  | F_from_bmp file => s <- SDLSurface_from_bmp lib file ;; ret (W_Surface s)
  | F_from_image file => s <- SDLSurface_from_image lib file ;; ret (W_Surface s)
  | F_surface_rgb flags width height depth rm gm bm am =>
      s <- SDLSurface_ctor_rgb lib flags width height depth rm gm bm am ;;
      ret (W_Surface s)
  | F_window title width height flags =>
      w <- SDLWindow_ctor lib title width height flags ;; ret (W_Window w)
  | F_get_surface this => s <- SDLWindow_get_surface lib this ;; ret (W_Surface s)
  | F_create_renderer this index flags =>
      r <- SDLWindow_create_renderer lib this index flags ;; ret (W_Renderer r)
  | F_create_texture this format access w h =>
      t <- SDLRenderer_create_texture lib this format access w h ;;
      ret (W_Texture t)
  | F_create_texture_from_surface this surface =>
      t <- SDLRenderer_create_texture_from_surface lib this surface ;;
      ret (W_Texture t)
  | F_open this file ptsize =>
      f <- SDLTTF_open lib this file ptsize ;; ret (W_Font f)
  | F_render_glyph_solid this ch fg =>
      s <- TTFFont_render_glyph_solid lib this ch fg ;; ret (W_Surface s)
  | F_render_glyph_blended this ch fg =>
      s <- TTFFont_render_glyph_blended lib this ch fg ;; ret (W_Surface s)
  end.

(** The native function that hands out the pointer. *)
Definition factory_call (f : Factory) : Call :=
  match f with
  | F_from_bmp file => C_SDL_LoadBMP file
  | F_from_image file => C_IMG_Load file
  | F_surface_rgb flags width height depth rm gm bm am =>
      C_SDL_CreateRGBSurface flags width height depth rm gm bm am
  | F_window title width height flags =>
      C_SDL_CreateWindow title SDL_WINDOWPOS_UNDEFINED SDL_WINDOWPOS_UNDEFINED
                         width height flags
  | F_get_surface this => C_SDL_GetWindowSurface (up_ptr (m_window this))
  | F_create_renderer this index flags =>
      C_SDL_CreateRenderer (up_ptr (m_window this)) index flags
  | F_create_texture this format access w h =>
      C_SDL_CreateTexture (up_ptr (m_renderer this)) format access w h
  | F_create_texture_from_surface this surface =>
      C_SDL_CreateTextureFromSurface (up_ptr (m_renderer this))
                                     (up_ptr (m_surface surface))
  | F_open _ file ptsize => C_TTF_OpenFont file ptsize
  | F_render_glyph_solid this ch fg =>
      C_TTF_RenderGlyph_Solid (up_ptr (m_font this)) ch fg
  | F_render_glyph_blended this ch fg =>
      C_TTF_RenderGlyph_Blended (up_ptr (m_font this)) ch fg
  end.

(** The wrapper class each factory returns, around pointer [p]. *)
Definition wrap (f : Factory) (p : Handle) : Wrapper :=
  match f with
  | F_from_bmp _ | F_from_image _ | F_surface_rgb _ _ _ _ _ _ _ _
  | F_get_surface _ | F_render_glyph_solid _ _ _
  | F_render_glyph_blended _ _ _ => W_Surface (SDLSurface_ctor p)
  | F_window _ _ _ _ => W_Window {| m_window := {| up_ptr := p |} |}
  | F_create_renderer _ _ _ => W_Renderer (SDLRenderer_ctor p)
  | F_create_texture _ _ _ _ _ | F_create_texture_from_surface _ _ =>
      W_Texture (SDLTexture_ctor p)
  | F_open _ _ _ => W_Font (TTFFont_ctor p)
  end.

(** The factories whose source compares the pointer with [nullptr]. *)
Definition checks_null (f : Factory) : bool :=
  match f with
  | F_from_bmp _ | F_from_image _ | F_surface_rgb _ _ _ _ _ _ _ _
  | F_window _ _ _ _ | F_open _ _ _ | F_render_glyph_solid _ _ _
  | F_render_glyph_blended _ _ _ => true
  | F_get_surface _ | F_create_renderer _ _ _ | F_create_texture _ _ _ _ _
  | F_create_texture_from_surface _ _ => false
  end.

(** ** Throw sites, uniformly *)

(** A call of one of the functions whose source contains a [throw]. *)
Inductive ThrowSite :=
| T_factory (f : Factory)
| T_SDL
| T_SDL_IMG
| T_SDLTTF
| T_lock (this : SDLSurface)
| T_set_viewport (this : SDLRenderer) (rect : option SDL_Rect)
| T_glyph_metrics (this : TTFFont) (ch : Z).

(** The call, with its result dropped. *)
Definition attempt (lib : Mock) (t : ThrowSite) : M unit :=
  match t with
  | T_factory f => _ <- produce lib f ;; ret tt
  | T_SDL => _ <- SDL_ctor lib ;; ret tt
  | T_SDL_IMG => _ <- SDL_IMG_ctor lib ;; ret tt
  | T_SDLTTF => _ <- SDLTTF_ctor lib ;; ret tt
  | T_lock this => SDLSurface_lock lib this
  | T_set_viewport this rect => SDLRenderer_set_viewport lib this rect
  | T_glyph_metrics this ch => _ <- TTFFont_glyph_metrics lib this ch ;; ret tt
  end.

(** The literal each throw site starts its message with. *)
Definition fixed_text (t : ThrowSite) : string :=
  match t with
  | T_factory (F_from_bmp _) => "SDL_LoadBMP failed! SDL_Error: "
  | T_factory (F_from_image _) => "IMG_Load failed! IMG_Error: "
  | T_factory (F_surface_rgb _ _ _ _ _ _ _ _) =>
      "SDL_CreateRGBSurface failed! SDL_Error: "
  | T_factory (F_window _ _ _ _) => "Window could not be created! SDL_Error: "
  | T_factory (F_open _ _ _) => "Could not load font! TTF_Error: "
  | T_factory (F_render_glyph_solid _ _ _) => "Failure in glyph render! TTF_Error: "
  | T_factory (F_render_glyph_blended _ _ _) =>
      "Failure in glyph render! TTF_Error: "
  | T_factory _ => ""
  | T_SDL => "SDL uninitialized"
  | T_SDL_IMG => "IMG_Init failed! IMG_GetError: "
  | T_SDLTTF => "Can't init TTF! TTF_Error: "
  | T_lock _ => "SDL_LockSurface failed! SDL_Error: "
  | T_set_viewport _ _ => "Could'nt set viewport! SDL_Error: "
  | T_glyph_metrics _ _ => "Could not get metrics! TTF_Error: "
  end.

(** The last-error routine each throw site asks, if it asks one. *)
Definition error_call (t : ThrowSite) : option Call :=
  match t with
  | T_factory (F_from_image _) => Some C_IMG_GetError
  | T_factory (F_open _ _ _) | T_factory (F_render_glyph_solid _ _ _)
  | T_factory (F_render_glyph_blended _ _ _) => Some C_TTF_GetError
  | T_factory _ => Some C_SDL_GetError
  | T_SDL => None
  | T_SDL_IMG => Some C_IMG_GetError
  | T_SDLTTF | T_glyph_metrics _ _ => Some C_TTF_GetError
  | T_lock _ | T_set_viewport _ _ => Some C_SDL_GetError
  end.

(** The routine asked, [SDL_GetError] standing in where none is. *)
Definition asked (t : ThrowSite) : Call :=
  match error_call t with Some g => g | None => C_SDL_GetError end.

(** ** Resource accounting along a client run *)

Definition count_ev (p : Event -> bool) (tr : Trace) : nat :=
  List.length (filter p tr).

(** The event is a font or glyph-surface factory call that returned a
    non-null pointer. *)
Definition acquires (ev : Event) : bool :=
  match fst ev with
  | C_TTF_OpenFont _ _ | C_TTF_RenderGlyph_Solid _ _ _
  | C_TTF_RenderGlyph_Blended _ _ _ => negb (r_ptr (snd ev) =? nullptr)
  | _ => false
  end.

(** 1 for an object that owns a native handle. *)
Definition owns (o : Obj) : nat :=
  match o with
  | O_guard _ => 0
  | O_font f => if up_ptr (m_font f) =? nullptr then 0 else 1
  | O_surface s => if up_ptr (m_surface s) =? nullptr then 0 else 1
  end.

Definition is_guard (o : Obj) : nat :=
  match o with O_guard _ => 1 | _ => 0 end.

Fixpoint live (weight : Obj -> nat) (env : Env) : nat :=
  match env with
  | [] => 0
  | (_, o) :: env' => weight o + live weight env'
  end.

(** The statement is not a declaration of a font from a raw pointer. *)
Definition no_raw (s : Stmt) : bool :=
  match s with S_TTFFont _ _ => false | _ => true end.

(** Every [TTF_OpenFont] happens while more [TTF_Init] calls have
    succeeded than [TTF_Quit] calls were made. *)
Definition opens_while_initialised (tr : Trace) : Prop :=
  forall pre ev post,
    tr = pre ++ ev :: post ->
    is_open_font (fst ev) = true ->
    (count is_TTF_Quit pre < count_ev ttf_init_ok pre)%nat.

(** * Properties *)

(** ** Trace bookkeeping *)

Lemma calls_app (tr1 tr2 : Trace) :
  calls (tr1 ++ tr2) = (calls tr1 ++ calls tr2)%list.
Proof. unfold calls. apply map_app. Qed.

Lemma count_snoc (p : Call -> bool) (tr : Trace) (c : Call) (r : Reply) :
  count p (tr ++ [(c, r)]) = (count p tr + (if p c then 1 else 0))%nat.
Proof.
  unfold count. rewrite calls_app, filter_app, length_app. simpl.
  destruct (p c); reflexivity.
Qed.

Lemma releases_app (cs1 cs2 : list Call) :
  releases (cs1 ++ cs2) = (releases cs1 ++ releases cs2)%list.
Proof.
  induction cs1 as [|c cs1 IH]; simpl; [reflexivity|].
  rewrite IH. destruct (released c); reflexivity.
Qed.

Lemma releases_snoc (tr : Trace) (c : Call) (r : Reply) :
  releases (calls (tr ++ [(c, r)]))
  = (releases (calls tr) ++ match released c with Some h => [h] | None => [] end)%list.
Proof.
  rewrite calls_app, releases_app. simpl. destruct (released c); reflexivity.
Qed.

Lemma released_release_call (w : Wrapper) :
  released (release_call w) = Some (held w).
Proof. destruct w; reflexivity. Qed.

Lemma is_release_release_call (w : Wrapper) :
  is_release (release_call w) = true.
Proof. destruct w; reflexivity. Qed.

(** Unfolds the monad down to pairs. *)
Ltac run_monad :=
  unfold call_int, call_ptr, call_str, call_bool, call_void, native,
         bind, ret, throw; simpl.

(** ** Destructors *)

Lemma destroy_eq (lib : Mock) (w : Wrapper) (tr : Trace) :
  destroy lib w tr
  = (Normal tt,
     if held w =? nullptr then tr
     else tr ++ [(release_call w, lib tr (release_call w))]).
Proof.
  destruct w as [[[h]]|[[h]]|[[h]]|[[h]]|[[h]]];
    unfold destroy, held, release_call, owner,
           SDLSurface_dtor, SDLTexture_dtor, SDLRenderer_dtor,
           SDLWindow_dtor, TTFFont_dtor, up_dtor,
           SDLSurface_Deleter, SDLTexture_Deleter, SDLRenderer_Deleter,
           SDLWindow_Deleter, TTFFont_Deleter; simpl;
    destruct (h =? nullptr) eqn:E; reflexivity.
Qed.

(** C4.  For each of the five owning wrappers (surface, texture,
    renderer, window, font): the destructor returns normally; when the
    held handle is null it makes no native call at all, and otherwise its
    only native call is the subsystem's destroy routine on that handle.
    So the number of destroy-routine calls grows by one exactly when the
    handle is non-null, and never on null. *)
Theorem destroy_releases_only_nonnull (lib : Mock) (w : Wrapper) (tr : Trace) :
  destroy lib w tr
  = (Normal tt,
     if held w =? nullptr then tr
     else tr ++ [(release_call w, lib tr (release_call w))])
  /\ count is_release (snd (destroy lib w tr))
     = (count is_release tr + (if Z.eqb (held w) nullptr then 0 else 1))%nat
  /\ releases (calls (snd (destroy lib w tr)))
     = (releases (calls tr) ++ (if Z.eqb (held w) nullptr then [] else [held w]))%list.
Proof.
  rewrite destroy_eq. simpl. split; [reflexivity|].
  destruct (held w =? nullptr).
  - split; [lia | now rewrite app_nil_r].
  - rewrite count_snoc, releases_snoc, is_release_release_call,
      released_release_call. split; reflexivity.
Qed.

(** ** Guards *)

Lemma guard_ctor_eq (lib : Mock) (k : GuardKind) (tr : Trace) :
  let r := lib tr (init_call k) in
  let tr1 := tr ++ [(init_call k, r)] in
  guard_ctor lib k tr
  = if init_failed k (r_int r) then
      match k with
      | G_SDL => (Thrown (runtime_error "SDL uninitialized"), tr1)
      | G_IMG =>
          (Thrown (runtime_error ("IMG_Init failed! IMG_GetError: "
                                  ++ r_str (lib tr1 C_IMG_GetError))%string),
           tr1 ++ [(C_IMG_GetError, lib tr1 C_IMG_GetError)])
      | G_TTF =>
          (Thrown (runtime_error ("Can't init TTF! TTF_Error: "
                                  ++ r_str (lib tr1 C_TTF_GetError))%string),
           tr1 ++ [(C_TTF_GetError, lib tr1 C_TTF_GetError)])
      end
    else
      (Normal match k with
              | G_SDL => Guard_SDL mk_SDL
              | G_IMG => Guard_IMG mk_SDL_IMG
              | G_TTF => Guard_TTF mk_SDLTTF
              end, tr1).
Proof.
  destruct k; unfold guard_ctor, SDL_ctor, SDL_IMG_ctor, SDLTTF_ctor,
    init_failed, init_call; run_monad.
  - destruct (r_int (lib tr (C_SDL_Init SDL_INIT_VIDEO)) <? 0); reflexivity.
  - destruct (Z.land (r_int (lib tr (C_IMG_Init IMG_INIT_PNG))) IMG_INIT_PNG =? 0);
      reflexivity.
  - destruct (r_int (lib tr C_TTF_Init) <? 0); reflexivity.
Qed.

Lemma guard_dtor_eq (lib : Mock) (k : GuardKind) (tr : Trace) :
  guard_dtor lib match k with
                 | G_SDL => Guard_SDL mk_SDL
                 | G_IMG => Guard_IMG mk_SDL_IMG
                 | G_TTF => Guard_TTF mk_SDLTTF
                 end tr
  = (Normal tt, tr ++ [(quit_call k, lib tr (quit_call k))]).
Proof. destruct k; reflexivity. Qed.

Lemma is_quit_init_call (k : GuardKind) : is_quit k (init_call k) = false.
Proof. destruct k; reflexivity. Qed.

Lemma is_quit_quit_call (k : GuardKind) : is_quit k (quit_call k) = true.
Proof. destruct k; reflexivity. Qed.

(** C2.  For each guard class (SDL, SDL_IMG, SDLTTF), with [r] what its
    init routine returns: when the constructor's test on [r] finds a
    failure, the constructor throws, no guard object comes into being and
    the trace has no new call of the paired quit routine, also for a guard
    declared in a block of its own; when the test finds success, the
    constructor returns a guard without calling quit, the destructor
    calls the paired quit routine exactly once, and the block as a whole
    adds exactly one quit call. *)
Theorem guard_lifecycle (lib : Mock) (k : GuardKind) (tr : Trace) :
  let failed := init_failed k (r_int (lib tr (init_call k))) in
  match guard_ctor lib k tr with
  | (Thrown _, tr1) =>
      failed = true /\ count (is_quit k) tr1 = count (is_quit k) tr
  | (Normal g, tr1) =>
      failed = false /\ count (is_quit k) tr1 = count (is_quit k) tr /\
      forall tr2,
        fst (guard_dtor lib g tr2) = Normal tt /\
        count (is_quit k) (snd (guard_dtor lib g tr2)) = S (count (is_quit k) tr2)
  end
  /\ count (is_quit k) (snd (guard_scope lib k tr))
     = (count (is_quit k) tr + (if failed then 0 else 1))%nat.
Proof.
  intros failed. unfold guard_scope, bind.
  rewrite guard_ctor_eq. fold failed.
  destruct failed eqn:F.
  - destruct k; simpl; rewrite ?count_snoc; simpl;
      (split; [split; [reflexivity | lia] | lia]).
  - rewrite guard_dtor_eq. simpl.
    rewrite !count_snoc, is_quit_init_call, is_quit_quit_call.
    split; [split; [reflexivity | split; [lia |]] | lia].
    intros tr2. rewrite guard_dtor_eq. simpl.
    rewrite count_snoc, is_quit_quit_call. split; [reflexivity | lia].
Qed.

(** ** Surface locking *)

(** C6.  With [r] the status [SDL_LockSurface] returns for the surface's
    handle: [lock] makes that call and throws (message: the fixed text
    followed by [SDL_GetError]) exactly when [r] is non-zero, returning
    normally otherwise; [try_lock] makes the same single call, never
    throws, and returns [true] exactly when [r] is zero; [unlock] makes
    the one [SDL_UnlockSurface] call and returns normally whatever the
    library replies. *)
Theorem surface_locking (lib : Mock) (s : SDLSurface) (tr : Trace) :
  let h := up_ptr (m_surface s) in
  let r := r_int (lib tr (C_SDL_LockSurface h)) in
  let tr1 := tr ++ [(C_SDL_LockSurface h, lib tr (C_SDL_LockSurface h))] in
  SDLSurface_lock lib s tr
  = (if r =? 0 then (Normal tt, tr1)
     else (Thrown (runtime_error ("SDL_LockSurface failed! SDL_Error: "
                                  ++ r_str (lib tr1 C_SDL_GetError))%string),
           tr1 ++ [(C_SDL_GetError, lib tr1 C_SDL_GetError)]))
  /\ SDLSurface_try_lock lib s tr = (Normal (r =? 0), tr1)
  /\ SDLSurface_unlock lib s tr
     = (Normal tt, tr ++ [(C_SDL_UnlockSurface h, lib tr (C_SDL_UnlockSurface h))]).
Proof.
  intros h r tr1. unfold SDLSurface_lock, SDLSurface_try_lock, SDLSurface_unlock.
  run_monad. fold h. fold r. fold tr1.
  destruct (r =? 0); repeat split; reflexivity.
Qed.

(** ** Forwarding operations *)

Lemma set_viewport_eq (lib : Mock) (this : SDLRenderer) (rect : option SDL_Rect)
    (tr : Trace) :
  let c := C_SDL_RenderSetViewport (up_ptr (m_renderer this)) rect in
  let tr1 := tr ++ [(c, lib tr c)] in
  SDLRenderer_set_viewport lib this rect tr
  = if r_int (lib tr c) <? 0 then
      (Thrown (runtime_error ("Could'nt set viewport! SDL_Error: "
                              ++ r_str (lib tr1 C_SDL_GetError))%string),
       tr1 ++ [(C_SDL_GetError, lib tr1 C_SDL_GetError)])
    else (Normal tt, tr1).
Proof.
  intros c tr1. unfold SDLRenderer_set_viewport. run_monad. fold c.
  destruct (r_int (lib tr c) <? 0); reflexivity.
Qed.

(** C9.  Each of clear, present, set_draw_color, draw_line, draw_rect,
    draw_texture, set_render_target, reset_render_target,
    set_logical_size, blit_to and query makes its one native call and
    returns normally, for every argument and whatever status the library
    reports; set_viewport is the renderer operation that looks at the
    status, throwing exactly when it is negative. *)
Theorem forwarding_ignores_status (lib : Mock) (tr : Trace) :
  (forall op : ForwardOp,
     forward lib op tr
     = (Normal tt, tr ++ [(forwarded_call op, lib tr (forwarded_call op))]))
  /\ (forall this rect,
       let c := C_SDL_RenderSetViewport (up_ptr (m_renderer this)) rect in
       fst (SDLRenderer_set_viewport lib this rect tr)
       = if r_int (lib tr c) <? 0 then
           Thrown (runtime_error
                     (String.append "Could'nt set viewport! SDL_Error: "
                        (r_str (lib (tr ++ [(c, lib tr c)]) C_SDL_GetError))))
         else Normal tt).
Proof.
  split.
  - intros op. destruct op; reflexivity.
  - intros this rect c. rewrite set_viewport_eq. fold c.
    destruct (r_int (lib tr c) <? 0); reflexivity.
Qed.

(** ** SDLSurface::get *)

(** C10.  [get] returns the handle the surface holds and leaves the
    object as it was; it makes no native call.  The destructor of the
    object after [get] behaves as before it: one [SDL_FreeSurface] of that
    handle when it is non-null, nothing when it is null. *)
Theorem surface_get_keeps_ownership (lib : Mock) (s : SDLSurface) (tr : Trace) :
  let h := up_ptr (m_surface s) in
  SDLSurface_get s = (h, s)
  /\ SDLSurface_dtor lib (snd (SDLSurface_get s)) tr
     = (Normal tt,
        if h =? nullptr then tr
        else tr ++ [(C_SDL_FreeSurface h, lib tr (C_SDL_FreeSurface h))])
  /\ releases (calls (snd (SDLSurface_dtor lib (snd (SDLSurface_get s)) tr)))
     = (releases (calls tr) ++ (if Z.eqb h nullptr then [] else [h]))%list.
Proof.
  intros h.
  assert (G : SDLSurface_get s = (h, s)) by (destruct s as [[p]]; reflexivity).
  rewrite G. simpl. split; [reflexivity|].
  pose proof (destroy_eq lib (W_Surface s) tr) as D.
  unfold destroy, held, release_call, owner in D. fold h in D.
  rewrite D. simpl. split; [reflexivity|].
  destruct (h =? nullptr).
  - now rewrite app_nil_r.
  - now rewrite releases_snoc.
Qed.

(** ** Factories *)

Lemma SDLTTF_open_eq (lib : Mock) (g : SDLTTF) (file : string) (ptsize : Z)
    (tr : Trace) :
  let c := C_TTF_OpenFont file ptsize in
  let tr1 := tr ++ [(c, lib tr c)] in
  SDLTTF_open lib g file ptsize tr
  = if r_ptr (lib tr c) =? nullptr then
      (Thrown (runtime_error (String.append "Could not load font! TTF_Error: "
                                (r_str (lib tr1 C_TTF_GetError)))),
       tr1 ++ [(C_TTF_GetError, lib tr1 C_TTF_GetError)])
    else (Normal (TTFFont_ctor (r_ptr (lib tr c))), tr1).
Proof.
  intros c tr1. unfold SDLTTF_open. run_monad. fold c.
  destruct (r_ptr (lib tr c) =? nullptr); reflexivity.
Qed.

Lemma SDLSurface_from_bmp_eq (lib : Mock) (file : string) (tr : Trace) :
  let c := C_SDL_LoadBMP file in
  let tr1 := tr ++ [(c, lib tr c)] in
  SDLSurface_from_bmp lib file tr
  = if r_ptr (lib tr c) =? nullptr then
      (Thrown (runtime_error (String.append "SDL_LoadBMP failed! SDL_Error: "
                                (r_str (lib tr1 C_SDL_GetError)))),
       tr1 ++ [(C_SDL_GetError, lib tr1 C_SDL_GetError)])
    else (Normal (SDLSurface_ctor (r_ptr (lib tr c))), tr1).
Proof.
  intros c tr1. unfold SDLSurface_from_bmp. run_monad. fold c.
  destruct (r_ptr (lib tr c) =? nullptr); reflexivity.
Qed.

Lemma SDLSurface_from_image_eq (lib : Mock) (file : string) (tr : Trace) :
  let c := C_IMG_Load file in
  let tr1 := tr ++ [(c, lib tr c)] in
  SDLSurface_from_image lib file tr
  = if r_ptr (lib tr c) =? nullptr then
      (Thrown (runtime_error (String.append "IMG_Load failed! IMG_Error: "
                                (r_str (lib tr1 C_IMG_GetError)))),
       tr1 ++ [(C_IMG_GetError, lib tr1 C_IMG_GetError)])
    else (Normal (SDLSurface_ctor (r_ptr (lib tr c))), tr1).
Proof.
  intros c tr1. unfold SDLSurface_from_image. run_monad. fold c.
  destruct (r_ptr (lib tr c) =? nullptr); reflexivity.
Qed.

Lemma SDLSurface_ctor_rgb_eq (lib : Mock) (flags width height depth rm gm bm am : Z)
    (tr : Trace) :
  let c := C_SDL_CreateRGBSurface flags width height depth rm gm bm am in
  let tr1 := tr ++ [(c, lib tr c)] in
  SDLSurface_ctor_rgb lib flags width height depth rm gm bm am tr
  = if r_ptr (lib tr c) =? nullptr then
      (Thrown (runtime_error (String.append "SDL_CreateRGBSurface failed! SDL_Error: "
                                (r_str (lib tr1 C_SDL_GetError)))),
       tr1 ++ [(C_SDL_GetError, lib tr1 C_SDL_GetError)])
    else (Normal (SDLSurface_ctor (r_ptr (lib tr c))), tr1).
Proof.
  intros c tr1. unfold SDLSurface_ctor_rgb, up_reset, up_dtor. run_monad. fold c.
  destruct (r_ptr (lib tr c) =? nullptr) eqn:E; simpl; rewrite ?E; reflexivity.
Qed.

Lemma SDLWindow_ctor_eq (lib : Mock) (title : string) (width height flags : Z)
    (tr : Trace) :
  let c := C_SDL_CreateWindow title SDL_WINDOWPOS_UNDEFINED
             SDL_WINDOWPOS_UNDEFINED width height flags in
  let tr1 := tr ++ [(c, lib tr c)] in
  SDLWindow_ctor lib title width height flags tr
  = if r_ptr (lib tr c) =? nullptr then
      (Thrown (runtime_error (String.append "Window could not be created! SDL_Error: "
                                (r_str (lib tr1 C_SDL_GetError)))),
       tr1 ++ [(C_SDL_GetError, lib tr1 C_SDL_GetError)])
    else (Normal {| m_window := {| up_ptr := r_ptr (lib tr c) |} |}, tr1).
Proof.
  intros c tr1. unfold SDLWindow_ctor, up_reset, up_dtor. run_monad. fold c.
  destruct (r_ptr (lib tr c) =? nullptr) eqn:E; simpl; rewrite ?E; reflexivity.
Qed.

(** The factories that wrap whatever pointer the library returns. *)
Lemma SDLWindow_create_renderer_eq (lib : Mock) (w : SDLWindow) (index flags : Z)
    (tr : Trace) :
  let c := C_SDL_CreateRenderer (up_ptr (m_window w)) index flags in
  SDLWindow_create_renderer lib w index flags tr
  = (Normal (SDLRenderer_ctor (r_ptr (lib tr c))), tr ++ [(c, lib tr c)]).
Proof. reflexivity. Qed.

Lemma SDLRenderer_create_texture_eq (lib : Mock) (r : SDLRenderer)
    (format access w h : Z) (tr : Trace) :
  let c := C_SDL_CreateTexture (up_ptr (m_renderer r)) format access w h in
  SDLRenderer_create_texture lib r format access w h tr
  = (Normal (SDLTexture_ctor (r_ptr (lib tr c))), tr ++ [(c, lib tr c)]).
Proof. reflexivity. Qed.

Lemma SDLRenderer_create_texture_from_surface_eq (lib : Mock) (r : SDLRenderer)
    (s : SDLSurface) (tr : Trace) :
  let c := C_SDL_CreateTextureFromSurface (up_ptr (m_renderer r))
             (up_ptr (m_surface s)) in
  SDLRenderer_create_texture_from_surface lib r s tr
  = (Normal (SDLTexture_ctor (r_ptr (lib tr c))), tr ++ [(c, lib tr c)]).
Proof. reflexivity. Qed.

(** C1.  The code at the failing input.  A window is created (the
    library returns 4096); [SDL_CreateRenderer] then returns null, and
    [create_renderer] returns normally with a renderer wrapper around the
    null pointer.  [create_texture] does the same when [SDL_CreateTexture]
    returns null.  The window constructor, by contrast, throws on null. *)
Theorem create_renderer_wraps_null :
  fst ((w <- SDLWindow_ctor no_renderer_lib "demo" 640 480 0 ;;
        SDLWindow_create_renderer no_renderer_lib w 0 0) [])
  = Normal (SDLRenderer_ctor nullptr)
  /\ fst (SDLRenderer_create_texture no_renderer_lib (SDLRenderer_ctor 8192)
            0 0 16 16 [])
     = Normal (SDLTexture_ctor nullptr)
  /\ fst (SDLWindow_ctor failing_lib "demo" 640 480 0 [])
     = Thrown (runtime_error
                 "Window could not be created! SDL_Error: No available video device").
Proof. repeat split. Qed.

(** ** Error messages *)

Lemma prefix_refl (s : string) : String.prefix s s = true.
Proof.
  induction s as [|a s IH]; simpl; [reflexivity|].
  destruct (Ascii.ascii_dec a a); [exact IH | contradiction].
Qed.

Lemma is_infix_refl (s : string) : is_infix s s = true.
Proof. destruct s; simpl; [reflexivity|]. rewrite prefix_refl.
  destruct (Ascii.ascii_dec a a); [reflexivity | contradiction]. Qed.

(** A message built as fixed text followed by the last error contains
    the last error. *)
Lemma is_infix_append (fixed err : string) :
  is_infix err (String.append fixed err) = true.
Proof.
  induction fixed as [|a fixed IH]; simpl.
  - apply is_infix_refl.
  - rewrite IH. destruct err; [reflexivity|].
    destruct (Ascii.ascii_dec a0 a); [destruct (String.prefix err _)|];
      reflexivity.
Qed.

(** Opening a font that the library cannot open: the message carries
    the library's last error, whatever it is. *)
Lemma open_error_contains_last_error (lib : Mock) (g : SDLTTF) (file : string)
    (ptsize : Z) (tr : Trace) :
  let c := C_TTF_OpenFont file ptsize in
  r_ptr (lib tr c) = nullptr ->
  exists msg tr',
    SDLTTF_open lib g file ptsize tr = (Thrown (runtime_error msg), tr') /\
    is_infix (r_str (lib (tr ++ [(c, lib tr c)]) C_TTF_GetError)) msg = true.
Proof.
  intros c H. rewrite SDLTTF_open_eq. fold c. rewrite H.
  change (nullptr =? nullptr) with true. cbv iota.
  eexists _, _. split; [reflexivity | apply is_infix_append].
Qed.

Example open_missing_font :
  fst (SDLTTF_open failing_lib mk_SDLTTF "missing.ttf" 16 [])
  = Thrown (runtime_error "Could not load font! TTF_Error: file not found")
  /\ is_infix "file not found" "Could not load font! TTF_Error: file not found"
     = true.
Proof. split; reflexivity. Qed.

(** C3.  The code at the failing input.  [SDL_Init] returns -1 while the
    library's last error is a text of its own; the [SDL] constructor
    throws a message that is the fixed text alone, it never asks the
    library for the last error, and the last error does not occur in the
    message. *)
Theorem sdl_init_error_omits_last_error :
  SDL_ctor failing_lib []
  = (Thrown (runtime_error "SDL uninitialized"),
     [(C_SDL_Init SDL_INIT_VIDEO, reply_int (-1))])
  /\ r_str (failing_lib [(C_SDL_Init SDL_INIT_VIDEO, reply_int (-1))] C_SDL_GetError)
     = "No available video device"%string
  /\ is_infix "No available video device" "SDL uninitialized" = false.
Proof. repeat split. Qed.

(** ** Move construction *)

Lemma move_construct_movable (w : Wrapper) :
  movable w = true ->
  exists a b,
    move_construct w = Some (a, b) /\
    held a = nullptr /\ held b = held w /\
    release_call b = release_call w.
Proof.
  destruct w as [s|[[h]]|[[h]]|[[h]]|f]; simpl; try discriminate; intros _;
    eexists _, _; repeat split; reflexivity.
Qed.

Lemma move_construct_unmovable (w : Wrapper) :
  movable w = false -> move_construct w = None.
Proof. destruct w; simpl; try discriminate; reflexivity. Qed.

(** C5, as stated, at a surface holding handle 4096: the statement
    fails, because a surface has no move constructor. *)
Lemma surface_move_construction_absent :
  ~ move_transfers_ownership working_lib (W_Surface (SDLSurface_ctor 4096)).
Proof. intros (a & b & H & _). discriminate H. Qed.

(** C5, amended.  For a texture, renderer or window wrapper that holds a
    non-null handle: move construction leaves the source null, so
    destroying the source makes no native call, and destroying the new
    object releases the transferred handle exactly once.  A surface or
    font wrapper has no move constructor. *)
Theorem move_transfers_ownership_where_declared (lib : Mock) (w : Wrapper) :
  held w <> nullptr ->
  if movable w then move_transfers_ownership lib w
  else move_construct w = None.
Proof.
  intros Hn. destruct (movable w) eqn:Mv.
  - destruct (move_construct_movable w Mv) as (a & b & Hm & Ha & Hb & Hc).
    exists a, b. split; [exact Hm|]. intros tr.
    rewrite !destroy_eq, Ha, Hb, Hc. simpl.
    apply Z.eqb_neq in Hn. rewrite Hn.
    rewrite releases_snoc, released_release_call. repeat split.
  - now apply move_construct_unmovable.
Qed.

Lemma move_transfers_ownership_where_declared_witness :
  held (W_Texture (SDLTexture_ctor 4096)) <> nullptr /\
  move_transfers_ownership working_lib (W_Texture (SDLTexture_ctor 4096)).
Proof.
  assert (H : held (W_Texture (SDLTexture_ctor 4096)) <> nullptr)
    by (vm_compute; discriminate).
  split; [exact H|].
  exact (move_transfers_ownership_where_declared working_lib
           (W_Texture (SDLTexture_ctor 4096)) H).
Defined.

(** ** Opening a font and measuring a glyph *)

(** C7.  When [TTF_OpenFont] returns a non-null pointer, [open] returns
    a font wrapper holding exactly that pointer; when [TTF_GlyphMetrics]
    on that font then reports success, [glyph_metrics] returns exactly the
    five values the library stored. *)
Theorem open_then_glyph_metrics (lib : Mock) (g : SDLTTF) (file : string)
    (ptsize ch : Z) (tr tr2 : Trace) :
  let c := C_TTF_OpenFont file ptsize in
  let h := r_ptr (lib tr c) in
  let q := C_TTF_GlyphMetrics h ch in
  h <> nullptr ->
  0 <= r_int (lib tr2 q) ->
  SDLTTF_open lib g file ptsize tr = (Normal (TTFFont_ctor h), tr ++ [(c, lib tr c)])
  /\ up_ptr (m_font (TTFFont_ctor h)) = h
  /\ TTFFont_glyph_metrics lib (TTFFont_ctor h) ch tr2
     = (Normal (r_metrics (lib tr2 q)), tr2 ++ [(q, lib tr2 q)]).
Proof.
  intros c h q Hh Hq. rewrite SDLTTF_open_eq. fold c. fold h.
  apply Z.eqb_neq in Hh. rewrite Hh.
  split; [reflexivity|]. split; [reflexivity|].
  unfold TTFFont_glyph_metrics. run_monad. fold q.
  apply Z.ltb_ge in Hq. rewrite Hq. reflexivity.
Qed.

Lemma open_then_glyph_metrics_witness :
  SDLTTF_open working_lib mk_SDLTTF "DejaVuSans.ttf" 16 []
  = (Normal (TTFFont_ctor 4096),
     [(C_TTF_OpenFont "DejaVuSans.ttf" 16,
       working_lib [] (C_TTF_OpenFont "DejaVuSans.ttf" 16))])
  /\ fst (TTFFont_glyph_metrics working_lib (TTFFont_ctor 4096) 65
            [(C_TTF_OpenFont "DejaVuSans.ttf" 16,
              working_lib [] (C_TTF_OpenFont "DejaVuSans.ttf" 16))])
     = Normal {| minx := 1; maxx := 9; miny := 0; maxy := 12; advance := 10 |}.
Proof.
  assert (H1 : r_ptr (working_lib [] (C_TTF_OpenFont "DejaVuSans.ttf" 16))
               <> nullptr) by (vm_compute; discriminate).
  assert (H2 : 0 <= r_int (working_lib
                   [(C_TTF_OpenFont "DejaVuSans.ttf" 16,
                     working_lib [] (C_TTF_OpenFont "DejaVuSans.ttf" 16))]
                   (C_TTF_GlyphMetrics
                      (r_ptr (working_lib [] (C_TTF_OpenFont "DejaVuSans.ttf" 16)))
                      65)))
    by (vm_compute; discriminate).
  destruct (open_then_glyph_metrics working_lib mk_SDLTTF "DejaVuSans.ttf" 16 65
              [] _ H1 H2) as (A & _ & B).
  split; [exact A | exact (f_equal fst B)].
Defined.

(** ** Fonts are opened under a guard *)

Lemma safe_refl (tr : Trace) : safe_ext tr tr.
Proof. exists []. split; [now rewrite app_nil_r | reflexivity]. Qed.

Lemma safe_trans (tr1 tr2 tr3 : Trace) :
  safe_ext tr1 tr2 -> safe_ext tr2 tr3 -> safe_ext tr1 tr3.
Proof.
  intros (n1 & -> & F1) (n2 & -> & F2). exists (n1 ++ n2). split.
  - now rewrite app_assoc.
  - rewrite forallb_app. apply andb_true_intro. split; assumption.
Qed.

Lemma safe_snoc (tr : Trace) (c : Call) (r : Reply) :
  is_open_font c = false -> safe_ext tr (tr ++ [(c, r)]).
Proof. intros H. exists [(c, r)]. split; [reflexivity|]. simpl. now rewrite H. Qed.

Lemma seen_app (tr new : Trace) : seen tr = true -> seen (tr ++ new) = true.
Proof. unfold seen. intros H. now rewrite existsb_app, H. Qed.

Lemma safe_seen (tr tr' : Trace) :
  safe_ext tr tr' -> seen tr = true -> seen tr' = true.
Proof. intros (new & -> & _). apply seen_app. Qed.

Lemma safe_guarded (tr tr' : Trace) :
  safe_ext tr tr' -> opens_guarded tr -> opens_guarded tr'.
Proof.
  intros (new & -> & F) G pre ev post E Hev.
  apply app_eq_app in E. destruct E as (l & [[E1 E2] | [E1 E2]]).
  - destruct l as [|x l].
    + simpl in E2. subst new. simpl in F. rewrite Hev in F. discriminate.
    + simpl in E2. injection E2 as <- E2.
      apply (G pre ev l); [now rewrite E1 | exact Hev].
  - subst new. rewrite forallb_app in F. simpl in F. rewrite Hev in F.
    simpl in F. rewrite andb_false_r in F. discriminate.
Qed.

(** Once a successful init is recorded, any further event keeps the
    trace guarded. *)
Lemma seen_guarded_snoc (tr : Trace) (ev : Event) :
  seen tr = true -> opens_guarded tr -> opens_guarded (tr ++ [ev]).
Proof.
  intros S G pre ev' post E Hev.
  apply app_eq_app in E. destruct E as (l & [[E1 E2] | [E1 E2]]).
  - destruct l as [|x l].
    + rewrite app_nil_r in E1. subst pre. exact S.
    + simpl in E2. injection E2 as <- E2.
      apply (G pre ev' l); [exact E1 | exact Hev].
  - subst pre. apply seen_app, S.
Qed.

Ltac solve_safe :=
  repeat first
    [ apply safe_refl
    | match goal with
      | |- safe_ext ?tr (?x ++ [(?c, ?r)]) =>
          apply safe_trans with x; [| apply safe_snoc; reflexivity]
      end ].

Lemma destroy_obj_safe (lib : Mock) (o : Obj) (tr : Trace) :
  safe_ext tr (snd (destroy_obj lib o tr)).
Proof.
  destruct o as [g|f|s]; unfold destroy_obj.
  - unfold SDLTTF_dtor. run_monad. solve_safe.
  - change (TTFFont_dtor lib f tr) with (destroy lib (W_Font f) tr).
    rewrite destroy_eq. cbn [snd].
    destruct (held (W_Font f) =? nullptr); [apply safe_refl|].
    apply safe_snoc. reflexivity.
  - change (SDLSurface_dtor lib s tr) with (destroy lib (W_Surface s) tr).
    rewrite destroy_eq. cbn [snd].
    destruct (held (W_Surface s) =? nullptr); [apply safe_refl|].
    apply safe_snoc. reflexivity.
Qed.

Lemma unwind_safe (lib : Mock) (env : Env) (tr : Trace) :
  safe_ext tr (snd (unwind lib env tr)).
Proof.
  revert tr. induction env as [|[x o] env IH]; intros tr; simpl.
  - apply safe_refl.
  - unfold bind. pose proof (destroy_obj_safe lib o tr) as D.
    destruct (destroy_obj lib o tr) as [[u|e] tr1]; simpl in D |- *.
    + eapply safe_trans; [exact D | apply IH].
    + exact D.
Qed.

Lemma glyph_metrics_safe (lib : Mock) (f : TTFFont) (ch : Z) (tr : Trace) :
  safe_ext tr (snd (TTFFont_glyph_metrics lib f ch tr)).
Proof.
  unfold TTFFont_glyph_metrics. run_monad.
  destruct (r_int _ <? 0); simpl; solve_safe.
Qed.

Lemma render_glyph_solid_safe (lib : Mock) (f : TTFFont) (ch : Z)
    (fg : SDL_Color) (tr : Trace) :
  safe_ext tr (snd (TTFFont_render_glyph_solid lib f ch fg tr)).
Proof.
  unfold TTFFont_render_glyph_solid. run_monad.
  destruct (r_ptr _ =? nullptr); simpl; solve_safe.
Qed.

Lemma render_glyph_blended_safe (lib : Mock) (f : TTFFont) (ch : Z)
    (fg : SDL_Color) (tr : Trace) :
  safe_ext tr (snd (TTFFont_render_glyph_blended lib f ch fg tr)).
Proof.
  unfold TTFFont_render_glyph_blended. run_monad.
  destruct (r_ptr _ =? nullptr); simpl; solve_safe.
Qed.

Lemma lookup_In (x : Var) (env : Env) (o : Obj) :
  lookup x env = Some o -> In (x, o) env.
Proof.
  induction env as [|[y o'] env IH]; simpl; [discriminate|].
  destruct (Nat.eqb x y) eqn:E.
  - intros [= ->]. apply Nat.eqb_eq in E. subst. now left.
  - intros H. right. now apply IH.
Qed.

Lemma remove_incl (x : Var) (env : Env) (p : Var * Obj) :
  In p (remove x env) -> In p env.
Proof.
  induction env as [|[y o] env IH]; simpl; [tauto|].
  destruct (Nat.eqb x y); simpl; [tauto|].
  intros [H|H]; [now left | right; now apply IH].
Qed.

(** A step whose new events contain no [TTF_OpenFont] and whose new
    environment has no guard the old one lacked. *)
Lemma safe_step (env env' : Env) (tr tr' : Trace) :
  run_inv env tr -> safe_ext tr tr' -> (has_guard env' -> has_guard env) ->
  run_inv env' tr'.
Proof.
  intros [G S] E H. split.
  - eapply safe_guarded; eassumption.
  - intros Hg. eapply safe_seen; [exact E | auto].
Qed.

Lemma has_guard_cons_other (x : Var) (o : Obj) (env : Env) :
  (forall g, o <> O_guard g) -> has_guard ((x, o) :: env) -> has_guard env.
Proof.
  intros Ho (y & g & [E|I]).
  - injection E as _ E. exfalso. apply (Ho g E).
  - exists y, g. exact I.
Qed.

Lemma has_guard_remove (x : Var) (env : Env) :
  has_guard (remove x env) -> has_guard env.
Proof. intros (y & g & I). exists y, g. eapply remove_incl, I. Qed.

Lemma on_font_step (lib : Mock) {A} (f : Var) (env : Env) (op : TTFFont -> M A)
    (upd : A -> Env) (c : M Env) (tr : Trace) :
  on_font f env (fun font => a <- op font ;; ret (upd a)) = Some c ->
  (forall font tr0, safe_ext tr0 (snd (op font tr0))) ->
  (forall a, has_guard (upd a) -> has_guard env) ->
  run_inv env tr ->
  match c tr with
  | (Normal env', tr1) => run_inv env' tr1
  | (Thrown _, tr1) => run_inv env tr1
  end.
Proof.
  unfold on_font. intros E Hop Hupd I.
  destruct (lookup f env) as [[g|font|s]|]; try discriminate.
  injection E as <-. unfold bind, ret.
  specialize (Hop font tr). destruct (op font tr) as [[a|e] tr1]; simpl in Hop.
  - eapply safe_step; [exact I | exact Hop | apply Hupd].
  - eapply safe_step; [exact I | exact Hop | auto].
Qed.

Lemma call_int_safe (lib : Mock) (c : Call) (tr : Trace) :
  is_open_font c = false -> safe_ext tr (snd (call_int lib c tr)).
Proof. intros H. run_monad. now apply safe_snoc. Qed.

(** One statement keeps the invariant, whether it returns or throws. *)
Lemma exec_inv (lib : Mock) (s : Stmt) (env : Env) (c : M Env) (tr : Trace) :
  exec lib s env = Some c ->
  run_inv env tr ->
  match c tr with
  | (Normal env', tr1) => run_inv env' tr1
  | (Thrown _, tr1) => run_inv env tr1
  end.
Proof.
  intros E I. destruct s; simpl in E.
  - (* SDLTTF g; *)
    injection E as <-. unfold SDLTTF_ctor. run_monad.
    destruct (r_int (lib tr C_TTF_Init) <? 0) eqn:R; simpl.
    + eapply safe_step; [exact I | solve_safe | auto].
    + destruct I as [G S]. split.
      * eapply safe_guarded; [| exact G]. solve_safe.
      * intros _. unfold seen. rewrite existsb_app. simpl.
        unfold ttf_init_ok. simpl. apply Z.ltb_ge in R.
        apply Z.leb_le in R. rewrite R. now rewrite orb_true_r.
  - (* TTFFont f = g.open(file, ptsize); *)
    destruct (lookup g env) as [[guard|font|su]|] eqn:L; try discriminate.
    injection E as <-. unfold bind, ret. rewrite SDLTTF_open_eq.
    destruct I as [G S].
    assert (Sn : seen tr = true)
      by (apply S; exists g, guard; now apply lookup_In).
    pose proof (seen_guarded_snoc tr
                  (C_TTF_OpenFont file ptsize, lib tr (C_TTF_OpenFont file ptsize))
                  Sn G) as G1.
    destruct (r_ptr (lib tr (C_TTF_OpenFont file ptsize)) =? nullptr).
    + split.
      * eapply safe_guarded; [| exact G1]. solve_safe.
      * intros _. rewrite <- app_assoc. now apply seen_app.
    + split; [exact G1 | intros _; now apply seen_app].
  - (* TTFFont f(font); *)
    injection E as <-. unfold ret.
    eapply safe_step; [exact I | apply safe_refl |].
    apply has_guard_cons_other. intros g. discriminate.
  - eapply (on_font_step lib f env (fun font => TTFFont_glyph_metrics lib font ch)
              (fun _ => env)); eauto using glyph_metrics_safe.
  - eapply (on_font_step lib f env
              (fun font => TTFFont_render_glyph_solid lib font ch fg)
              (fun o => (s, O_surface o) :: env));
      eauto using render_glyph_solid_safe.
    intros a. apply has_guard_cons_other. intros g. discriminate.
  - eapply (on_font_step lib f env
              (fun font => TTFFont_render_glyph_blended lib font ch fg)
              (fun o => (s, O_surface o) :: env));
      eauto using render_glyph_blended_safe.
    intros a. apply has_guard_cons_other. intros g. discriminate.
  - eapply (on_font_step lib f env (fun font => TTFFont_line_skip lib font)
              (fun _ => env)); eauto.
    intros font tr0. now apply call_int_safe.
  - eapply (on_font_step lib f env (fun font => TTFFont_ascent lib font)
              (fun _ => env)); eauto.
    intros font tr0. now apply call_int_safe.
  - eapply (on_font_step lib f env (fun font => TTFFont_descent lib font)
              (fun _ => env)); eauto.
    intros font tr0. now apply call_int_safe.
  - eapply (on_font_step lib f env (fun font => TTFFont_height lib font)
              (fun _ => env)); eauto.
    intros font tr0. now apply call_int_safe.
  - (* the scope of x ends *)
    destruct (lookup x env) as [o|]; try discriminate.
    injection E as <-. unfold bind, ret.
    pose proof (destroy_obj_safe lib o tr) as D.
    destruct (destroy_obj lib o tr) as [[u|e] tr1]; simpl in D.
    + eapply safe_step; [exact I | exact D | apply has_guard_remove].
    + eapply safe_step; [exact I | exact D | auto].
Qed.

Lemma run_guarded (lib : Mock) (p : list Stmt) :
  forall env tr o tr',
    run_inv env tr -> run lib p env tr = Some (o, tr') -> opens_guarded tr'.
Proof.
  induction p as [|s p IH]; intros env tr o tr' I R; simpl in R.
  - injection R as _ <-. apply I.
  - destruct (exec lib s env) as [c|] eqn:E; [|discriminate].
    pose proof (exec_inv lib s env c tr E I) as St.
    destruct (c tr) as [[env1|e] tr1].
    + eapply IH; eassumption.
    + injection R as _ <-.
      eapply safe_guarded; [apply unwind_safe | apply St].
Qed.

Lemma run_inv_start : run_inv [] [].
Proof.
  split.
  - intros pre ev post E. destruct pre; discriminate.
  - intros (x & g & []).
Qed.

(** C8.  In every client of the canonical font API that builds, started
    with no object alive and no native call made: each [TTF_OpenFont] the
    wrappers issue comes after a [TTF_Init] that reported success.  Only
    [SDLTTF::open] issues [TTF_OpenFont], it needs a guard object, and a
    guard object exists only once its constructor has seen [TTF_Init]
    succeed; the raw-pointer constructor of [TTFFont] wraps a pointer
    without any native call. *)
Theorem fonts_opened_under_guard (lib : Mock) (p : list Stmt) (o : Outcome Env)
    (tr : Trace) :
  run lib p [] [] = Some (o, tr) -> opens_guarded tr.
Proof. intros R. eapply run_guarded; [apply run_inv_start | exact R]. Qed.

Lemma fonts_opened_under_guard_witness :
  exists o tr,
    run working_lib demo_client [] [] = Some (o, tr) /\ opens_guarded tr.
Proof.
  destruct (run working_lib demo_client [] []) as [[o tr]|] eqn:R.
  - exists o, tr. split; [reflexivity|].
    exact (fonts_opened_under_guard working_lib demo_client o tr R).
  - vm_compute in R. discriminate R.
Defined.

(** A client that calls [open] with no guard declared does not build;
    one whose guard constructor throws never reaches [TTF_OpenFont]. *)
Example open_without_guard_rejected (lib : Mock) :
  run lib [S_open 1%nat 0%nat "DejaVuSans.ttf" 16] [] [] = None.
Proof. reflexivity. Qed.

Example open_after_failed_guard :
  run failing_lib [S_SDLTTF 0%nat; S_open 1%nat 0%nat "DejaVuSans.ttf" 16] [] []
  = Some (Thrown (runtime_error "Can't init TTF! TTF_Error: file not found"),
          [(C_TTF_Init, reply_int (-1));
           (C_TTF_GetError, reply_str "file not found")]).
Proof. reflexivity. Qed.

(** * Further properties of the wrappers *)

(** ** Factories *)

Lemma produce_eq (lib : Mock) (f : Factory) (tr : Trace) :
  let c := factory_call f in
  let p := r_ptr (lib tr c) in
  let tr1 := tr ++ [(c, lib tr c)] in
  let g := asked (T_factory f) in
  produce lib f tr
  = if checks_null f && (p =? nullptr) then
      (Thrown (runtime_error (String.append (fixed_text (T_factory f))
                                            (r_str (lib tr1 g)))),
       tr1 ++ [(g, lib tr1 g)])
    else (Normal (wrap f p), tr1).
Proof.
  destruct f; cbv zeta;
    unfold produce, SDLSurface_from_bmp, SDLSurface_from_image,
      SDLSurface_ctor_rgb, SDLWindow_ctor, SDLWindow_get_surface,
      SDLWindow_create_renderer, SDLRenderer_create_texture,
      SDLRenderer_create_texture_from_surface, SDLTTF_open,
      TTFFont_render_glyph_solid, TTFFont_render_glyph_blended,
      up_reset, up_dtor, factory_call, checks_null, wrap, asked, error_call,
      fixed_text;
    run_monad;
    try reflexivity;
    match goal with
    | |- context [r_ptr ?r =? nullptr] =>
        destruct (r_ptr r =? nullptr) eqn:E; simpl; rewrite ?E; reflexivity
    end.
Qed.

Lemma held_wrap (f : Factory) (p : Handle) : held (wrap f p) = p.
Proof. destruct f; reflexivity. Qed.


(** X2.  A factory call followed by the destructor of what it returned
    releases exactly the pointer the library handed out, once, when that
    pointer is non-null, and releases nothing when it is null: whether
    the factory threw or returned a wrapper around null. *)
Theorem factory_then_destroy (lib : Mock) (f : Factory) (tr : Trace) :
  let p := r_ptr (lib tr (factory_call f)) in
  releases (calls (snd ((w <- produce lib f ;; destroy lib w) tr)))
  = (releases (calls tr) ++ (if Z.eqb p nullptr then [] else [p]))%list.
Proof.
  intros p. unfold bind. rewrite produce_eq. fold p.
  assert (R1 : released (factory_call f) = None) by (destruct f; reflexivity).
  assert (R2 : released (asked (T_factory f)) = None) by (destruct f; reflexivity).
  destruct (checks_null f && (p =? nullptr)) eqn:K.
  - apply andb_true_iff in K. destruct K as [_ K]. rewrite K.
    cbn [snd]. rewrite !releases_snoc, R1, R2, !app_nil_r. reflexivity.
  - rewrite destroy_eq. cbn [snd]. rewrite held_wrap.
    destruct (p =? nullptr).
    + rewrite releases_snoc, R1. reflexivity.
    + rewrite !releases_snoc, R1, released_release_call, held_wrap, app_nil_r.
      reflexivity.
Qed.

(** ** Messages *)

(** X3.  What a thrown message is made of.  When one of the functions
    with a [throw] does throw: the [SDL] constructor's message is its
    fixed text and it made no call after [SDL_Init]; at every other throw
    site the last native call made is the last-error routine of the
    subsystem concerned ([IMG_GetError] for SDL_image calls,
    [TTF_GetError] for SDL_ttf calls, [SDL_GetError] otherwise), and the
    message is the site's fixed text followed by exactly the text that
    call returned, so it contains that text. *)
Theorem thrown_message (lib : Mock) (t : ThrowSite) (tr : Trace)
    (e : exception) (tr' : Trace) :
  attempt lib t tr = (Thrown e, tr') ->
  match error_call t with
  | None =>
      e = runtime_error (fixed_text t) /\
      tr' = tr ++ [(C_SDL_Init SDL_INIT_VIDEO, lib tr (C_SDL_Init SDL_INIT_VIDEO))]
  | Some g =>
      exists tr0,
        tr' = tr0 ++ [(g, lib tr0 g)] /\
        e = runtime_error (String.append (fixed_text t) (r_str (lib tr0 g))) /\
        is_infix (r_str (lib tr0 g))
                 (String.append (fixed_text t) (r_str (lib tr0 g))) = true
  end.
Proof.
  intros H.
  assert (Fin : forall g tr0,
            error_call t = Some g ->
            tr' = tr0 ++ [(g, lib tr0 g)] ->
            e = runtime_error (String.append (fixed_text t) (r_str (lib tr0 g))) ->
            match error_call t with
            | None =>
                e = runtime_error (fixed_text t) /\
                tr' = tr ++ [(C_SDL_Init SDL_INIT_VIDEO,
                              lib tr (C_SDL_Init SDL_INIT_VIDEO))]
            | Some g =>
                exists tr0,
                  tr' = tr0 ++ [(g, lib tr0 g)] /\
                  e = runtime_error (String.append (fixed_text t)
                                       (r_str (lib tr0 g))) /\
                  is_infix (r_str (lib tr0 g))
                    (String.append (fixed_text t) (r_str (lib tr0 g))) = true
            end).
  { intros g tr0 Eg Et Ee. rewrite Eg. exists tr0.
    split; [exact Et|]. split; [exact Ee | apply is_infix_append]. }
  destruct t as [f| | | |s|r rect|font ch].
  - unfold attempt, bind in H. rewrite produce_eq in H.
    destruct (checks_null f && (r_ptr (lib tr (factory_call f)) =? nullptr)) eqn:K;
      [|discriminate H].
    injection H as <- <-.
    apply andb_true_iff in K. destruct K as [K _].
    destruct (error_call (T_factory f)) as [g|] eqn:Eg;
      [| destruct f; discriminate Eg].
    assert (Ea : asked (T_factory f) = g) by (unfold asked; now rewrite Eg).
    rewrite Ea in Fin |- *. eapply Fin; reflexivity.
  - unfold attempt, SDL_ctor in H. revert H. run_monad.
    destruct (r_int (lib tr (C_SDL_Init SDL_INIT_VIDEO)) <? 0);
      intros H; [|discriminate H].
    injection H as <- <-. split; reflexivity.
  - unfold attempt, SDL_IMG_ctor in H. revert H. run_monad.
    destruct (Z.land (r_int (lib tr (C_IMG_Init IMG_INIT_PNG))) IMG_INIT_PNG =? 0);
      intros H; [|discriminate H].
    injection H as <- <-. eapply Fin; reflexivity.
  - unfold attempt, SDLTTF_ctor in H. revert H. run_monad.
    destruct (r_int (lib tr C_TTF_Init) <? 0); intros H; [|discriminate H].
    injection H as <- <-. eapply Fin; reflexivity.
  - unfold attempt, SDLSurface_lock in H. revert H. run_monad.
    destruct (r_int (lib tr (C_SDL_LockSurface (up_ptr (m_surface s)))) =? 0);
      intros H; [discriminate H|].
    injection H as <- <-. eapply Fin; reflexivity.
  - unfold attempt in H. rewrite set_viewport_eq in H.
    destruct (r_int (lib tr (C_SDL_RenderSetViewport (up_ptr (m_renderer r)) rect))
              <? 0); [|discriminate H].
    injection H as <- <-. eapply Fin; reflexivity.
  - unfold attempt, TTFFont_glyph_metrics in H. revert H. run_monad.
    destruct (r_int (lib tr (C_TTF_GlyphMetrics (up_ptr (m_font font)) ch)) <? 0);
      intros H; [|discriminate H].
    injection H as <- <-. eapply Fin; reflexivity.
Qed.

Lemma thrown_message_witness :
  exists tr0,
    [(C_IMG_Load "logo.png", failing_lib [] (C_IMG_Load "logo.png"));
     (C_IMG_GetError, reply_str "Unsupported image format")]
    = tr0 ++ [(C_IMG_GetError, failing_lib tr0 C_IMG_GetError)] /\
    runtime_error "IMG_Load failed! IMG_Error: Unsupported image format"
    = runtime_error (String.append "IMG_Load failed! IMG_Error: "
                       (r_str (failing_lib tr0 C_IMG_GetError))) /\
    is_infix (r_str (failing_lib tr0 C_IMG_GetError))
      (String.append "IMG_Load failed! IMG_Error: "
         (r_str (failing_lib tr0 C_IMG_GetError))) = true.
Proof.
  exact (thrown_message failing_lib (T_factory (F_from_image "logo.png")) []
           (runtime_error "IMG_Load failed! IMG_Error: Unsupported image format")
           [(C_IMG_Load "logo.png", failing_lib [] (C_IMG_Load "logo.png"));
            (C_IMG_GetError, reply_str "Unsupported image format")]
           eq_refl).
Defined.

(** ** The SDL_image guard *)

Lemma land_2 (r : Z) : Z.land r 2 = if Z.testbit r 1 then 2 else 0.
Proof.
  apply Z.bits_inj'. intros n Hn.
  rewrite Z.land_spec.
  change 2 with (2 ^ 1) at 1. rewrite Z.pow2_bits_eqb by lia.
  destruct (1 =? n) eqn:E.
  - apply Z.eqb_eq in E. subst n. rewrite andb_true_r.
    destruct (Z.testbit r 1); reflexivity.
  - rewrite andb_false_r.
    destruct (Z.testbit r 1).
    + change 2 with (2 ^ 1). rewrite Z.pow2_bits_eqb by lia. now rewrite E.
    + now rewrite Z.bits_0.
Qed.

(** X4.  The [SDL_IMG] constructor returns exactly when bit 1 (the PNG
    flag) is set in what [IMG_Init] returned, whatever the other bits
    are, and throws otherwise. *)
Theorem img_guard_needs_png_bit (lib : Mock) (tr : Trace) :
  let r := r_int (lib tr (C_IMG_Init IMG_INIT_PNG)) in
  fst (SDL_IMG_ctor lib tr)
  = if Z.testbit r 1 then Normal mk_SDL_IMG
    else Thrown (runtime_error
                   (String.append "IMG_Init failed! IMG_GetError: "
                      (r_str (lib (tr ++ [(C_IMG_Init IMG_INIT_PNG,
                                           lib tr (C_IMG_Init IMG_INIT_PNG))])
                                  C_IMG_GetError)))).
Proof.
  intros r.
  unfold SDL_IMG_ctor, call_int, call_str, native, bind, ret, throw.
  cbv beta iota zeta. fold r.
  change (Z.land r IMG_INIT_PNG) with (Z.land r 2). rewrite land_2.
  destruct (Z.testbit r 1); reflexivity.
Qed.

(** ** Moving and destroying *)

(** X5.  For a wrapper of a class with a move constructor, whatever it
    holds (null included): destroying the moved-from object and the new
    object, in either order, makes the same native calls and gives the
    same result as destroying the original alone.  So a move never adds a
    release and never loses one. *)
Theorem move_then_destroy_both (lib : Mock) (w a b : Wrapper) (tr : Trace) :
  move_construct w = Some (a, b) ->
  (destroy lib a ;; destroy lib b) tr = destroy lib w tr
  /\ (destroy lib b ;; destroy lib a) tr = destroy lib w tr.
Proof.
  intros Hm.
  assert (Mv : movable w = true) by (destruct w; try discriminate Hm; reflexivity).
  destruct (move_construct_movable w Mv) as (a' & b' & Hm' & Ha & Hb & Hc).
  rewrite Hm in Hm'. injection Hm' as <- <-.
  assert (Da : forall t, destroy lib a t = (Normal tt, t)).
  { intros t. rewrite destroy_eq, Ha. reflexivity. }
  assert (Db : forall t, destroy lib b t = destroy lib w t).
  { intros t. rewrite !destroy_eq, Hb, Hc. reflexivity. }
  unfold bind. split.
  - rewrite Da. apply Db.
  - rewrite Db. rewrite (destroy_eq lib w tr). apply Da.
Qed.

Lemma move_then_destroy_both_witness :
  (destroy working_lib (W_Window {| m_window := up_null |}) ;;
   destroy working_lib (W_Window {| m_window := {| up_ptr := 4096 |} |})) []
  = destroy working_lib (W_Window {| m_window := {| up_ptr := 4096 |} |}) []
  /\ (destroy working_lib (W_Window {| m_window := {| up_ptr := 4096 |} |}) ;;
      destroy working_lib (W_Window {| m_window := up_null |})) []
     = destroy working_lib (W_Window {| m_window := {| up_ptr := 4096 |} |}) [].
Proof.
  exact (move_then_destroy_both working_lib
           (W_Window {| m_window := {| up_ptr := 4096 |} |}) _ _ [] eq_refl).
Defined.

(** ** Accounting along a client run *)

Lemma count_ev_snoc (p : Event -> bool) (tr : Trace) (ev : Event) :
  count_ev p (tr ++ [ev]) = (count_ev p tr + (if p ev then 1 else 0))%nat.
Proof.
  unfold count_ev. rewrite filter_app, length_app. simpl.
  destruct (p ev); reflexivity.
Qed.

Lemma live_remove (weight : Obj -> nat) (x : Var) (env : Env) (o : Obj) :
  lookup x env = Some o ->
  (live weight (remove x env) + weight o = live weight env)%nat.
Proof.
  induction env as [|[y o'] env IH]; simpl; [discriminate|].
  destruct (Nat.eqb x y).
  - intros [= ->]. lia.
  - intros H. specialize (IH H). simpl. lia.
Qed.

(** The four counters of a trace. *)
Ltac count_up :=
  rewrite ?count_snoc, ?count_ev_snoc; simpl; try lia.

Lemma destroy_obj_counts (lib : Mock) (o : Obj) (tr : Trace) :
  let tr1 := snd (destroy_obj lib o tr) in
  fst (destroy_obj lib o tr) = Normal tt /\
  count is_TTF_Quit tr1 = (count is_TTF_Quit tr + is_guard o)%nat /\
  count is_release tr1 = (count is_release tr + owns o)%nat /\
  count_ev ttf_init_ok tr1 = count_ev ttf_init_ok tr /\
  count_ev acquires tr1 = count_ev acquires tr.
Proof.
  destruct o as [g|f|s]; unfold destroy_obj.
  - unfold SDLTTF_dtor. run_monad. repeat split; count_up.
  - change (TTFFont_dtor lib f tr) with (destroy lib (W_Font f) tr).
    rewrite destroy_eq. cbn [fst snd]. unfold held, owner, owns, is_guard.
    destruct (up_ptr (m_font f) =? nullptr); repeat split; count_up.
  - change (SDLSurface_dtor lib s tr) with (destroy lib (W_Surface s) tr).
    rewrite destroy_eq. cbn [fst snd]. unfold held, owner, owns, is_guard.
    destruct (up_ptr (m_surface s) =? nullptr); repeat split; count_up.
Qed.

(** Unwinding destroys every live object and acquires nothing. *)
Lemma unwind_counts (lib : Mock) (env : Env) (tr : Trace) :
  let tr1 := snd (unwind lib env tr) in
  count is_TTF_Quit tr1 = (count is_TTF_Quit tr + live is_guard env)%nat /\
  count is_release tr1 = (count is_release tr + live owns env)%nat /\
  count_ev ttf_init_ok tr1 = count_ev ttf_init_ok tr /\
  count_ev acquires tr1 = count_ev acquires tr.
Proof.
  revert tr. induction env as [|[x o] env IH]; intros tr; simpl.
  - repeat split; lia.
  - unfold bind.
    destruct (destroy_obj_counts lib o tr) as (N & Q & R & I & A).
    destruct (destroy_obj lib o tr) as [[u|e] tr0]; simpl in N, Q, R, I, A;
      [|discriminate N].
    destruct (IH tr0) as (Q' & R' & I' & A').
    rewrite Q', R', I', A', Q, R, I, A. repeat split; lia.
Qed.

Ltac on_font_case E f env :=
  unfold on_font in E;
  destruct (lookup f env) as [[?|?|?]|]; try discriminate E.

(** What one statement adds to the counters, whether it returns or
    throws: the change in quit calls and live guards equals the change in
    successful inits, and (unless the statement adopts a raw pointer) the
    change in destroy calls and live owners equals the change in
    acquisitions. *)
Lemma exec_counts (lib : Mock) (s : Stmt) (env : Env) (c : M Env) (tr : Trace)
    (o : Outcome Env) (tr1 : Trace) :
  exec lib s env = Some c ->
  c tr = (o, tr1) ->
  let env1 := match o with Normal e => e | Thrown _ => env end in
  (count is_TTF_Quit tr1 + live is_guard env1 + count_ev ttf_init_ok tr
   = count is_TTF_Quit tr + live is_guard env + count_ev ttf_init_ok tr1)%nat
  /\ (no_raw s = true ->
      (count is_release tr1 + live owns env1 + count_ev acquires tr
       = count is_release tr + live owns env + count_ev acquires tr1)%nat).
Proof.
  intros E R.
  destruct s; simpl in E;
    [ | destruct (lookup g env) as [[guard|?|?]|] eqn:L; try discriminate E
      | | on_font_case E f env | on_font_case E f env | on_font_case E f env
      | on_font_case E f env | on_font_case E f env | on_font_case E f env
      | on_font_case E f env
      | destruct (lookup x env) as [ob|] eqn:L; try discriminate E ];
    injection E as <-.
  - (* SDLTTF g; *)
    revert R. unfold SDLTTF_ctor. run_monad.
    destruct (r_int (lib tr C_TTF_Init) <? 0) eqn:C; intros [= <- <-]; simpl;
      split; intros; count_up.
    + unfold ttf_init_ok. simpl. apply Z.ltb_lt in C.
      destruct (0 <=? r_int (lib tr C_TTF_Init)) eqn:D; [apply Z.leb_le in D|]; lia.
    + unfold ttf_init_ok. simpl. apply Z.ltb_ge in C.
      apply Z.leb_le in C. rewrite C. lia.
  - (* TTFFont f = g.open(file, ptsize); *)
    revert R. unfold bind, ret. rewrite SDLTTF_open_eq.
    destruct (r_ptr (lib tr (C_TTF_OpenFont file ptsize)) =? nullptr) eqn:C;
      intros [= <- <-]; simpl; split; intros; count_up;
      unfold acquires; simpl; rewrite C; simpl; lia.
  - (* TTFFont f(font); *)
    revert R. unfold ret. intros [= <- <-]. simpl. split; [lia | discriminate].
  - revert R. unfold TTFFont_glyph_metrics. run_monad.
    destruct (r_int _ <? 0); intros [= <- <-]; simpl; split; intros; count_up.
  - revert R. unfold TTFFont_render_glyph_solid. run_monad.
    destruct (r_ptr (lib tr _) =? nullptr) eqn:C;
      intros [= <- <-]; simpl; split; intros; count_up;
      unfold acquires; simpl; rewrite C; simpl; lia.
  - revert R. unfold TTFFont_render_glyph_blended. run_monad.
    destruct (r_ptr (lib tr _) =? nullptr) eqn:C;
      intros [= <- <-]; simpl; split; intros; count_up;
      unfold acquires; simpl; rewrite C; simpl; lia.
  - revert R. unfold TTFFont_line_skip. run_monad.
    intros [= <- <-]; simpl; split; intros; count_up.
  - revert R. unfold TTFFont_ascent. run_monad.
    intros [= <- <-]; simpl; split; intros; count_up.
  - revert R. unfold TTFFont_descent. run_monad.
    intros [= <- <-]; simpl; split; intros; count_up.
  - revert R. unfold TTFFont_height. run_monad.
    intros [= <- <-]; simpl; split; intros; count_up.
  - (* the scope of x ends *)
    revert R. unfold bind, ret.
    destruct (destroy_obj_counts lib ob tr) as (N & Q & Rl & I & A).
    destruct (destroy_obj lib ob tr) as [[u|e] tr0]; simpl in N, Q, Rl, I, A;
      [|discriminate N].
    intros [= <- <-]. simpl.
    pose proof (live_remove is_guard x env ob L).
    pose proof (live_remove owns x env ob L).
    split; intros; lia.
Qed.

Lemma run_counts (lib : Mock) (p : list Stmt) :
  forall env tr o tr',
    run lib p env tr = Some (o, tr') ->
    let at_end weight :=
      match o with Normal e => live weight e | Thrown _ => 0%nat end in
    (count is_TTF_Quit tr' + at_end is_guard + count_ev ttf_init_ok tr
     = count is_TTF_Quit tr + live is_guard env + count_ev ttf_init_ok tr')%nat
    /\ (forallb no_raw p = true ->
        (count is_release tr' + at_end owns + count_ev acquires tr
         = count is_release tr + live owns env + count_ev acquires tr')%nat).
Proof.
  induction p as [|s p IH]; intros env tr o tr' R; simpl in R.
  - injection R as <- <-. simpl. split; intros; lia.
  - destruct (exec lib s env) as [c|] eqn:E; [|discriminate R].
    destruct (c tr) as [[env1|e] tr1] eqn:C.
    + destruct (exec_counts lib s env c tr _ _ E C) as [G H]. simpl in G, H.
      destruct (IH env1 tr1 o tr' R) as [G' H']. simpl in G', H' |- *.
      split; [lia|]. intros F. apply andb_true_iff in F. destruct F as [F1 F2].
      specialize (H F1). specialize (H' F2). lia.
    + injection R as <- <-.
      destruct (exec_counts lib s env c tr _ _ E C) as [G H]. simpl in G, H.
      destruct (unwind_counts lib env tr1) as (Q & Rl & I & A).
      simpl. rewrite Q, Rl, I, A.
      split; [lia|]. intros F. apply andb_true_iff in F. destruct F as [F1 _].
      specialize (H F1). lia.
Qed.

(** X6.  Init and quit are paired over a whole client run.  When the run
    ends normally, the [TTF_Quit] calls made plus the guards still alive
    equal the [TTF_Init] calls that reported success; when it ends by an
    exception, unwinding has destroyed every guard and the quit calls
    equal the successful inits.  A failed init is never followed by a
    quit of its own, and no guard is quit twice. *)
Theorem client_guards_balanced (lib : Mock) (p : list Stmt) (o : Outcome Env)
    (tr : Trace) :
  run lib p [] [] = Some (o, tr) ->
  (count is_TTF_Quit tr
   + match o with Normal env => live is_guard env | Thrown _ => 0 end
   = count_ev ttf_init_ok tr)%nat.
Proof.
  intros R. destruct (run_counts lib p [] [] o tr R) as [G _].
  simpl in G. unfold count, count_ev in G. simpl in G. unfold count, count_ev.
  lia.
Qed.

Lemma client_guards_balanced_witness :
  exists o tr,
    run working_lib demo_client [] [] = Some (o, tr) /\
    (count is_TTF_Quit tr
     + match o with Normal env => live is_guard env | Thrown _ => 0 end
     = count_ev ttf_init_ok tr)%nat.
Proof.
  destruct (run working_lib demo_client [] []) as [[o tr]|] eqn:R.
  - exists o, tr. split; [reflexivity|].
    exact (client_guards_balanced working_lib demo_client o tr R).
  - vm_compute in R. discriminate R.
Defined.



(** The guard is built, the font opens, measuring the glyph throws:
    unwinding closes the font and then quits the library. *)
Example unwinding_releases_everything :
  run metrics_fail_lib demo_client [] []
  = Some (Thrown (runtime_error
                    "Could not get metrics! TTF_Error: Couldn't find glyph"),
          [(C_TTF_Init, reply0);
           (C_TTF_OpenFont "DejaVuSans.ttf" 16, reply_ptr 4096);
           (C_TTF_GlyphMetrics 4096 65, reply_int (-1));
           (C_TTF_GetError, reply_str "Couldn't find glyph");
           (C_TTF_CloseFont 4096, reply0);
           (C_TTF_Quit, reply0)]).
Proof. reflexivity. Qed.

(** ** Fonts are opened while the library is initialised *)

Lemma safe_opens_initialised (tr tr' : Trace) :
  safe_ext tr tr' -> opens_while_initialised tr -> opens_while_initialised tr'.
Proof.
  intros (new & -> & F) G pre ev post E Hev.
  apply app_eq_app in E. destruct E as (l & [[E1 E2] | [E1 E2]]).
  - destruct l as [|x l].
    + simpl in E2. subst new. simpl in F. rewrite Hev in F. discriminate.
    + simpl in E2. injection E2 as <- E2.
      apply (G pre ev l); [now rewrite E1 | exact Hev].
  - subst new. rewrite forallb_app in F. simpl in F. rewrite Hev in F.
    simpl in F. rewrite andb_false_r in F. discriminate.
Qed.

Lemma opens_initialised_snoc (tr : Trace) (ev : Event) :
  (count is_TTF_Quit tr < count_ev ttf_init_ok tr)%nat ->
  opens_while_initialised tr -> opens_while_initialised (tr ++ [ev]).
Proof.
  intros S G pre ev' post E Hev.
  apply app_eq_app in E. destruct E as (l & [[E1 E2] | [E1 E2]]).
  - destruct l as [|x l].
    + rewrite app_nil_r in E1. subst pre. exact S.
    + simpl in E2. injection E2 as <- E2.
      apply (G pre ev' l); [exact E1 | exact Hev].
  - destruct l as [|x l].
    + rewrite app_nil_r in E1. subst pre. exact S.
    + simpl in E2. injection E2 as _ E2.
      exfalso. exact (app_cons_not_nil _ _ _ E2).
Qed.

Lemma live_guard_positive (g : Var) (env : Env) (guard : SDLTTF) :
  lookup g env = Some (O_guard guard) -> (1 <= live is_guard env)%nat.
Proof.
  intros L. pose proof (live_remove is_guard g env _ L) as H. simpl in H. lia.
Qed.

(** Every statement but [open] adds no [TTF_OpenFont]. *)
Lemma exec_safe (lib : Mock) (s : Stmt) (env : Env) (c : M Env) (tr : Trace) :
  exec lib s env = Some c ->
  (forall f g file ptsize, s <> S_open f g file ptsize) ->
  safe_ext tr (snd (c tr)).
Proof.
  intros E Hs.
  assert (B : forall A (op : M A) (k : A -> Env),
            safe_ext tr (snd (op tr)) ->
            safe_ext tr (snd ((a <- op ;; ret (k a)) tr))).
  { intros A op k H. unfold bind, ret. destruct (op tr) as [[a|e] t]; exact H. }
  destruct s; simpl in E;
    [ | exfalso; eapply Hs; reflexivity
      | | on_font_case E f env | on_font_case E f env | on_font_case E f env
      | on_font_case E f env | on_font_case E f env | on_font_case E f env
      | on_font_case E f env
      | destruct (lookup x env) as [ob|] eqn:L; try discriminate E ];
    injection E as <-.
  - apply B. unfold SDLTTF_ctor. run_monad.
    destruct (r_int _ <? 0); simpl; solve_safe.
  - apply safe_refl.
  - apply (B _ _ (fun _ => env)), glyph_metrics_safe.
  - apply B, render_glyph_solid_safe.
  - apply B, render_glyph_blended_safe.
  - apply (B _ _ (fun _ => env)). now apply call_int_safe.
  - apply (B _ _ (fun _ => env)). now apply call_int_safe.
  - apply (B _ _ (fun _ => env)). now apply call_int_safe.
  - apply (B _ _ (fun _ => env)). now apply call_int_safe.
  - apply (B _ _ (fun _ => remove x env)), destroy_obj_safe.
Qed.

Lemma exec_opens_initialised (lib : Mock) (s : Stmt) (env : Env) (c : M Env)
    (tr : Trace) (o : Outcome Env) (tr1 : Trace) :
  exec lib s env = Some c ->
  c tr = (o, tr1) ->
  (count is_TTF_Quit tr + live is_guard env = count_ev ttf_init_ok tr)%nat ->
  opens_while_initialised tr ->
  opens_while_initialised tr1.
Proof.
  intros E C Bal G.
  assert (Safe : (forall f g file ptsize, s <> S_open f g file ptsize) ->
                 opens_while_initialised tr1).
  { intros Hs. eapply safe_opens_initialised; [| exact G].
    replace tr1 with (snd (c tr)) by (now rewrite C).
    eapply exec_safe; [exact E | exact Hs]. }
  destruct s; try (apply Safe; intros; discriminate).
  clear Safe. simpl in E.
  destruct (lookup g env) as [[guard|?|?]|] eqn:L; try discriminate E.
  injection E as <-. apply live_guard_positive in L.
  revert C. unfold bind, ret. rewrite SDLTTF_open_eq.
  destruct (r_ptr (lib tr (C_TTF_OpenFont file ptsize)) =? nullptr);
    intros [= <- <-].
  - apply safe_opens_initialised
      with (tr := tr ++ [(C_TTF_OpenFont file ptsize,
                          lib tr (C_TTF_OpenFont file ptsize))]).
    + solve_safe.
    + apply opens_initialised_snoc; [lia | exact G].
  - apply opens_initialised_snoc; [lia | exact G].
Qed.

Lemma run_opens_initialised (lib : Mock) (p : list Stmt) :
  forall env tr o tr',
    (count is_TTF_Quit tr + live is_guard env = count_ev ttf_init_ok tr)%nat ->
    opens_while_initialised tr ->
    run lib p env tr = Some (o, tr') ->
    opens_while_initialised tr'.
Proof.
  induction p as [|s p IH]; intros env tr o tr' Bal G R; simpl in R.
  - injection R as _ <-. exact G.
  - destruct (exec lib s env) as [c|] eqn:E; [|discriminate R].
    destruct (c tr) as [[env1|e] tr1] eqn:C.
    + pose proof (exec_counts lib s env c tr _ _ E C) as [Cn _]. simpl in Cn.
      eapply (IH env1 tr1); [lia | | exact R].
      eapply exec_opens_initialised; eassumption.
    + injection R as _ <-.
      eapply safe_opens_initialised; [apply unwind_safe |].
      eapply exec_opens_initialised; eassumption.
Qed.

(** X8.  In every client of the font API that builds, each
    [TTF_OpenFont] is issued at a moment when more [TTF_Init] calls have
    succeeded than [TTF_Quit] calls have been made: a font is opened only
    while a guard is alive, never after the library has been shut down by
    the last guard leaving scope. *)
Theorem client_opens_while_initialised (lib : Mock) (p : list Stmt)
    (o : Outcome Env) (tr : Trace) :
  run lib p [] [] = Some (o, tr) -> opens_while_initialised tr.
Proof.
  intros R. eapply (run_opens_initialised lib p [] []); [reflexivity | | exact R].
  intros pre ev post E. destruct pre; discriminate E.
Qed.

Lemma client_opens_while_initialised_witness :
  exists o tr,
    run working_lib demo_client [] [] = Some (o, tr) /\
    opens_while_initialised tr.
Proof.
  destruct (run working_lib demo_client [] []) as [[o tr]|] eqn:R.
  - exists o, tr. split; [reflexivity|].
    exact (client_opens_while_initialised working_lib demo_client o tr R).
  - vm_compute in R. discriminate R.
Defined.

(** A guard that has left its scope cannot be used to open a font: the
    client does not build. *)
Example open_after_guard_scope (lib : Mock) :
  r_int (lib [] C_TTF_Init) = 0 ->
  run lib [S_SDLTTF 0%nat; S_end 0%nat; S_open 1%nat 0%nat "DejaVuSans.ttf" 16]
      [] [] = None.
Proof.
  intros H. simpl. unfold SDLTTF_ctor. run_monad. rewrite H. reflexivity.
Qed.
